(** * prometheus-telegram-bot: the billing-cycle and report engine

    A shallow embedding of package [prometheus] (the revision with the
    [reset_day] label), of the menu stack, the page callbacks and the
    paged instance menus of package [bot], of the loop of package [utils],
    and of the parts of Go's [time], [fmt], [strings] and [strconv]
    packages that they call.

    Conventions.
    - Go [int], [int64] and [time.Duration] are [Z]; where the source can
      leave the 64-bit range the wrap-around ([wrap64]) or the saturation
      is written out.
    - [float64] values that come from the backend are [spec_float] at
      precision 53 and maximal exponent 1024 (IEEE 754 binary64).
    - The [float64] results of [Duration.Hours], [Duration.Minutes] and
      [Duration.Seconds] are only ever truncated, floored or printed by
      this package; they are kept as exact rationals [Q], so binary64
      rounding of those quotients is outside the model.
    - [model.Metric] is a Go map; it is an association list here, its order
      standing for the order in which [range] visits the map.
    - [time.Local] is a fixed-offset zone, a parameter of every function
      that reads it.
    - A Go [error] is a value of [error]; a run-time panic is [Panic]. *)

From Stdlib Require Import ZArith QArith Qround Bool List Lia.
From Stdlib Require Import Strings.String Strings.Ascii.
From Stdlib Require Import Floats.SpecFloat.
From Stdlib Require Import Sorting.Permutation.
Import ListNotations.

Open Scope string_scope.
Open Scope Z_scope.

(** ** Go integers *)

Module GoInt.

Definition minInt64 : Z := - 2 ^ 63.
Definition maxInt64 : Z := 2 ^ 63 - 1.

(** Two's-complement wrap-around of a mathematical integer to [int64]. *)
Definition wrap64 (z : Z) : Z := (z + 2 ^ 63) mod 2 ^ 64 - 2 ^ 63.

Definition inInt64 (z : Z) : bool := (minInt64 <=? z) && (z <=? maxInt64).

End GoInt.

(** ** strings and fmt *)

Module GoStr.

(** The one-character string holding a double quote (ASCII 34). *)
Definition dquote : string := String (ascii_of_nat 34) EmptyString.

(** [strings.Join]. *)
Fixpoint Join (elems : list string) (sep : string) : string :=
  match elems with
  | [] => ""
  | [x] => x
  | x :: rest => x ++ sep ++ Join rest sep
  end.

(** [strings.HasSuffix]. *)
Fixpoint HasSuffix (s suffix : string) : bool :=
  (s =? suffix)%string ||
  match s with
  | EmptyString => false
  | String _ s' => HasSuffix s' suffix
  end.

(** [s[:len(s)-1]]. *)
Definition dropLast (s : string) : string :=
  substring 0 (String.length s - 1) s.

Definition digitChar (d : Z) : ascii := ascii_of_nat (48 + Z.to_nat d).

Fixpoint digitsFuel (fuel : nat) (n : Z) (acc : string) : string :=
  match fuel with
  | O => acc
  | S fuel' =>
      let acc' := String (digitChar (n mod 10)) acc in
      if n <? 10 then acc' else digitsFuel fuel' (n / 10) acc'
  end.

(** Decimal digits of a non-negative integer, most significant first. *)
Definition digits (n : Z) : string :=
  digitsFuel (S (Z.to_nat (Z.log2 n))) n "".

(** The verb [%d]. *)
Definition fmt_d (z : Z) : string :=
  if z <? 0 then "-" ++ digits (- z) else digits z.

(** The verb [%02d]. *)
Definition fmt_02d (z : Z) : string :=
  if (0 <=? z) && (z <? 10) then "0" ++ digits z else fmt_d z.

(** Round-half-even of the rational [num / den], [0 <= num], [0 < den]. *)
Definition roundHalfEven (num den : Z) : Z :=
  let q := num / den in
  let r := num mod den in
  match 2 * r ?= den with
  | Lt => q
  | Gt => q + 1
  | Eq => if Z.even q then q else q + 1
  end.

(** [n] hundredths printed with two decimals. *)
Definition hundredths (n : Z) : string :=
  digits (n / 100) ++ "." ++
  String (digitChar ((n / 10) mod 10)) (String (digitChar (n mod 10)) "").

(** The verb [%.2f] on a binary64 value: the exact value, rounded half to
    even at the second decimal (strconv's exact decimal conversion). *)
Definition fmt_2f (x : spec_float) : string :=
  match x with
  | S754_nan => "NaN"
  | S754_infinity false => "+Inf"
  | S754_infinity true => "-Inf"
  | S754_zero s => (if s then "-" else "") ++ "0.00"
  | S754_finite s m e =>
      let n :=
        match e with
        | Zneg p => roundHalfEven (Zpos m * 100) (2 ^ Zpos p)
        | _ => Zpos m * 2 ^ e * 100
        end in
      (if s then "-" else "") ++ hundredths n
  end.

(** The verb [%.0f] on an exactly known value. *)
Definition fmt_0f (x : Q) : string :=
  let n := roundHalfEven (Z.abs (Qnum x)) (Zpos (Qden x)) in
  (if Qnum x <? 0 then "-" else "") ++ digits n.

End GoStr.

(** ** binary64 *)

Module F64.

Definition float64 := spec_float.

Definition prec : Z := 53.
Definition emax : Z := 1024.

Definition ofZ (z : Z) : float64 := binary_normalize prec emax z 0 false.

Definition zero : float64 := S754_zero false.

Definition add : float64 -> float64 -> float64 := SFadd prec emax.
Definition div : float64 -> float64 -> float64 := SFdiv prec emax.

(** [x >= y], [x > y] and [x < y] of Go: false as soon as a NaN is
    involved. *)
Definition geb (x y : float64) : bool := SFleb y x.
Definition gtb (x y : float64) : bool := SFltb y x.
Definition ltb (x y : float64) : bool := SFltb x y.

Definition isFinite (x : float64) : bool :=
  match x with
  | S754_zero _ | S754_finite _ _ _ => true
  | _ => false
  end.

(** The conversion [int64(x)]: truncation toward zero; outside the range
    of [int64] (and on NaN) the amd64 result, the least [int64]. *)
Definition toInt64 (x : float64) : Z :=
  match x with
  | S754_zero _ => 0
  | S754_finite s m e =>
      let a := match e with
               | Zneg p => Zpos m / 2 ^ Zpos p
               | _ => Zpos m * 2 ^ e
               end in
      let v := if s then - a else a in
      if GoInt.inInt64 v then v else GoInt.minInt64
  | _ => GoInt.minInt64
  end.

End F64.

(** ** Errors and panics *)

Inductive error : Type :=
  | ParseError (layout value : string)
  | ApiError (msg : string)
  | Errorf (format : string) (cause : error).

(** The outcome of a Go call that returns [(A, error)] and may panic. *)
Inductive Res (A : Type) : Type :=
  | Ok (a : A)
  | Err (e : error)
  | Panic (msg : string).

Arguments Ok {A} a.
Arguments Err {A} e.
Arguments Panic {A} msg.



Definition notPanic {A : Type} (r : Res A) : bool :=
  match r with Panic _ => false | _ => true end.

(** The value of a call that succeeded, [dflt] otherwise. *)
Definition valueOr {A : Type} (r : Res A) (dflt : A) : A :=
  match r with Ok a => a | _ => dflt end.

(** [x, err := f(); if err != nil { return ..., fmt.Errorf(format, err) }]:
    an error is wrapped and returned, a panic unwinds. *)
Definition orReturn {A B : Type} (r : Res A) (format : string)
    (k : A -> Res B) : Res B :=
  match r with
  | Ok a => k a
  | Err e => Err (Errorf format e)
  | Panic msg => Panic msg
  end.

(** [x, err := f(); if err != nil { log.Printf(...) }]: the error is logged
    and the zero values [dflt] that [f] returned with it are used. *)
Definition orLog {A B : Type} (r : Res A) (dflt : A)
    (k : A -> Res B) : Res B :=
  match r with
  | Ok a => k a
  | Err _ => k dflt
  | Panic msg => Panic msg
  end.

(** ** Package time *)

Module GoTime.

Definition Duration := Z.

Definition Nanosecond : Duration := 1.
Definition Second : Duration := 1000000000.
Definition Minute : Duration := 60 * Second.
Definition Hour : Duration := 60 * Minute.

Definition minDuration : Duration := GoInt.minInt64.
Definition maxDuration : Duration := GoInt.maxInt64.

(** [d.Hours()], [d.Minutes()], [d.Seconds()], as exact values. *)
Definition Hours (d : Duration) : Q := d # 3600000000000.
Definition Minutes (d : Duration) : Q := d # 60000000000.
Definition Seconds (d : Duration) : Q := d # 1000000000.

(** The conversion [int(x)] of a [float64]: truncation toward zero. *)
Definition toInt (x : Q) : Z := Z.quot (Qnum x) (Zpos (Qden x)).

(** [math.Floor]. *)
Definition Floor (x : Q) : Q := inject_Z (Qfloor x).

(** A zone is its offset, in seconds east of UTC. *)
Definition Location := Z.
Definition UTC : Location := 0.

(** An instant (nanoseconds since 1970-01-01T00:00:00Z) and the zone in
    which its calendar fields are read. *)
Record Time : Type := mkTime { unixNano : Z; zone : Location }.

Definition isLeap (year : Z) : bool :=
  (year mod 4 =? 0) && (negb (year mod 100 =? 0) || (year mod 400 =? 0)).

(** Number of days of [month] (1..12) in [year]. *)
Definition daysIn (month year : Z) : Z :=
  if month =? 2 then (if isLeap year then 29 else 28)
  else if (month =? 4) || (month =? 6) || (month =? 9) || (month =? 11)
       then 30 else 31.

(** Day number (days since 1970-01-01) of the proleptic Gregorian date
    [year]-[month]-[day], for [month] in 1..12 and any [day]: day 0 is the
    last day of the month before, day 32 runs into the month after. *)
Definition daysFromCivil (year month day : Z) : Z :=
  let y := if month <=? 2 then year - 1 else year in
  let era := y / 400 in
  let yoe := y - era * 400 in
  let mp := if month <=? 2 then month + 9 else month - 3 in
  let doy := (153 * mp + 2) / 5 + day - 1 in
  let doe := yoe * 365 + yoe / 4 - yoe / 100 + doy in
  era * 146097 + doe - 719468.

(** The date of a day number: (year, month, day). *)
Definition civilFromDays (z : Z) : Z * Z * Z :=
  let z := z + 719468 in
  let era := z / 146097 in
  let doe := z - era * 146097 in
  let yoe := (doe - doe / 1460 + doe / 36524 - doe / 146096) / 365 in
  let doy := doe - (365 * yoe + yoe / 4 - yoe / 100) in
  let mp := (5 * doy + 2) / 153 in
  let d := doy - (153 * mp + 2) / 5 + 1 in
  let m := if mp <? 10 then mp + 3 else mp - 9 in
  let y := yoe + era * 400 in
  (if m <=? 2 then y + 1 else y, m, d).

(** Day number of a date whose month may lie outside 1..12 and whose day
    may lie outside the month: the normalisation of [time.Date]. *)
Definition normDays (year month day : Z) : Z :=
  let m := month - 1 in
  daysFromCivil (year + m / 12) (m mod 12 + 1) day.

Definition nanosPerDay : Z := 24 * Hour.

(** [time.Date(year, month, day, 0, 0, 0, 0, loc)]; every call of the
    package passes zero for the time of day. *)
Definition Date (year month day : Z) (loc : Location) : Time :=
  mkTime (normDays year month day * nanosPerDay - loc * Second) loc.

(** Day number of [t] on the calendar of its zone. *)
Definition localDay (t : Time) : Z :=
  (unixNano t + zone t * Second) / nanosPerDay.

Definition Year (t : Time) : Z := fst (fst (civilFromDays (localDay t))).
Definition Month (t : Time) : Z := snd (fst (civilFromDays (localDay t))).
Definition Day (t : Time) : Z := snd (civilFromDays (localDay t)).

Definition Before (t u : Time) : bool := unixNano t <? unixNano u.
Definition After (t u : Time) : bool := unixNano u <? unixNano t.
Definition Equal (t u : Time) : bool := unixNano t =? unixNano u.

Definition Add (t : Time) (d : Duration) : Time :=
  mkTime (unixNano t + d) (zone t).

(** [t.Sub(u)], saturating at the ends of [Duration]. *)
Definition Sub (t u : Time) : Duration :=
  let d := unixNano t - unixNano u in
  if d <? minDuration then minDuration
  else if maxDuration <? d then maxDuration
  else d.

(** Seconds from January 1 of year 1 to the Unix epoch. *)
Definition unixToInternal : Z := 62135596800.

(** [t.Truncate(d)]: [t] rounded down to a multiple of [d] since the zero
    time, on the absolute time line and whatever the zone of [t]. *)
Definition Truncate (t : Time) (d : Duration) : Time :=
  if d <=? 0 then t
  else mkTime (unixNano t - (unixNano t + unixToInternal * Second) mod d)
              (zone t).

Definition digitVal (c : ascii) : option Z :=
  let n := Z.of_nat (nat_of_ascii c) in
  if (48 <=? n) && (n <=? 57) then Some (n - 48) else None.

Definition layoutISO : string := "2006-01-02".

(** [time.Parse("2006-01-02", value)]: four digits, a dash, two digits, a
    dash, two digits and nothing else; the month in 1..12 and the day
    within the month; the result is in UTC. *)
Definition Parse (value : string) : Res Time :=
  match value with
  | String y1 (String y2 (String y3 (String y4 (String dash1
      (String m1 (String m2 (String dash2
        (String d1 (String d2 EmptyString))))))))) =>
      match digitVal y1, digitVal y2, digitVal y3, digitVal y4,
            digitVal m1, digitVal m2, digitVal d1, digitVal d2 with
      | Some a, Some b, Some c, Some d, Some e, Some f, Some g, Some h =>
          let year := ((a * 10 + b) * 10 + c) * 10 + d in
          let month := e * 10 + f in
          let day := g * 10 + h in
          if negb (Ascii.eqb dash1 "-" && Ascii.eqb dash2 "-")
          then Err (ParseError layoutISO value)
          else if (month <? 1) || (12 <? month)
          then Err (ParseError layoutISO value)
          else if (day <? 1) || (daysIn month year <? day)
          then Err (ParseError layoutISO value)
          else Ok (Date year month day UTC)
      | _, _, _, _, _, _, _, _ => Err (ParseError layoutISO value)
      end
  | _ => Err (ParseError layoutISO value)
  end.

End GoTime.

(** ** Package model of the Prometheus client library *)

Module Model.

Import F64.

(** [model.Metric]: label names to label values; the list order is the
    order of iteration. *)
Definition Metric := list (string * string).

(** [labels[k]]: the value of the label, the empty string when absent. *)
Fixpoint lookup (labels : Metric) (k : string) : string :=
  match labels with
  | [] => ""
  | (k', v) :: rest => if (k' =? k)%string then v else lookup rest k
  end.

Record Sample : Type := mkSample { sMetric : Metric; sValue : float64 }.

Record SamplePair : Type := mkPair { pTimestamp : Z; pValue : float64 }.

Record SampleStream : Type :=
  mkStream { ssMetric : Metric; ssValues : list SamplePair }.

(** [model.Value] with its four dynamic types. *)
Inductive Value : Type :=
  | ValScalar (v : float64)
  | ValString (s : string)
  | ValVector (v : list Sample)
  | ValMatrix (m : list SampleStream).

End Model.

(** ** Package prometheus *)

Module Prometheus.

Import GoInt GoStr F64 GoTime Model.

(** What the backend answers to one call of [promv1.API]: a value, or an
    error. Warnings are only logged and the ten-second timeout shows as an
    error, so neither is kept apart. *)
Inductive Reply : Type :=
  | Answer (v : Value)
  | Failure (e : error).

(** The backend behind [promv1.API]: its answers to instant queries
    [Query(ctx, query, ts)] and to range queries
    [QueryRange(ctx, query, Range{Start, End, Step})]. *)
Record Client : Type := mkClient {
  apiQuery : string -> Time -> Reply;
  apiQueryRange : string -> Time -> Time -> Duration -> Reply
}.

Definition call (r : Reply) : Res Value :=
  match r with
  | Answer v => Ok v
  | Failure e => Err e
  end.

Definition nl : string := String (ascii_of_nat 10) EmptyString.

(** *** Formatting *)

Definition formatDuration (d : Duration) : string :=
  let hours := toInt (Hours d) in
  let minutes := Z.rem (toInt (Minutes d)) 60 in
  let seconds := Z.rem (toInt (Seconds d)) 60 in
  if 24 <=? hours then fmt_d (Z.quot hours 24) ++ "d"
  else if 0 <? minutes then fmt_d hours ++ "h" ++ fmt_d minutes ++ "m"
  else if 0 <? seconds
       then fmt_d hours ++ "h" ++ fmt_d minutes ++ "m" ++ fmt_d seconds ++ "s"
  else fmt_d hours ++ "h".

Definition KB : float64 := ofZ 1024.
Definition MB : float64 := ofZ (1024 * 1024).
Definition GB : float64 := ofZ (1024 * 1024 * 1024).
Definition TB : float64 := ofZ (1024 * 1024 * 1024 * 1024).

Definition FormatBytesPerSecond (bytesPerSecond : float64) : string :=
  if geb bytesPerSecond TB then fmt_2f (div bytesPerSecond TB) ++ " TiB/s"
  else if geb bytesPerSecond GB then fmt_2f (div bytesPerSecond GB) ++ " GiB/s"
  else if geb bytesPerSecond MB then fmt_2f (div bytesPerSecond MB) ++ " MiB/s"
  else if geb bytesPerSecond KB then fmt_2f (div bytesPerSecond KB) ++ " KiB/s"
  else fmt_2f bytesPerSecond ++ " B/s".

Definition FormatBytes (bytes : float64) : string :=
  if geb bytes TB then fmt_2f (div bytes TB) ++ " TiB"
  else if geb bytes GB then fmt_2f (div bytes GB) ++ " GiB"
  else if geb bytes MB then fmt_2f (div bytes MB) ++ " MiB"
  else if geb bytes KB then fmt_2f (div bytes KB) ++ " KiB"
  else fmt_2f bytes ++ " B".

(** *** Label matchers *)

(** The keys that [BuildLabelMatchers] skips. *)
Definition skipped (k : string) : bool :=
  (k =? "__name__")%string || (k =? "expiry")%string ||
  (k =? "price")%string || (k =? "info")%string ||
  (k =? "cycle")%string || (k =? "job")%string || (k =? "cpu")%string.

(** [fmt.Sprintf("%s=\"%s\"", k, v)]. *)
Definition matcher (kv : string * string) : string :=
  fst kv ++ "=" ++ dquote ++ snd kv ++ dquote.

(** The slice [matcherStrings] after the loop over [labels]. *)
Fixpoint matcherStrings (labels : Metric) : list string :=
  match labels with
  | [] => []
  | kv :: rest =>
      if skipped (fst kv) then matcherStrings rest
      else matcher kv :: matcherStrings rest
  end.

Definition BuildLabelMatchers (labels : Metric) : string :=
  let result := Join (matcherStrings labels) "," in
  if HasSuffix result "," then dropLast result else result.

(** *** Cycle arithmetic *)

Definition calculateDaysDifference (now lastMonthExpiry : Time) : Z :=
  let daysDiff := toInt (Floor (Hours (Sub now lastMonthExpiry) / 24)) in
  if daysDiff <? 0 then - daysDiff else daysDiff.

Definition calculateTimeLeft (timeLeft : Duration) : Z * Z * Z :=
  let yearsLeft := toInt (Hours timeLeft / inject_Z (24 * 365)) in
  let monthsLeft :=
    toInt (Hours timeLeft / inject_Z (24 * 30)
           - inject_Z yearsLeft * inject_Z 12)%Q in
  let daysLeft :=
    toInt (Hours timeLeft / 24) - yearsLeft * 365 - monthsLeft * 30 in
  (yearsLeft, monthsLeft, daysLeft).

(** [time.Date(now.Year(), now.Month(), day, 0, 0, 0, 0, time.Local)], the
    variable [currentMonthResetDate] (with a [reset_day] label) or
    [currentMonthExpiryDate] (without) of [GetInstanceInfo]. *)
Definition currentMonthResetDate (Local : Location) (now : Time) (day : Z)
    : Time :=
  Date (Year now) (Month now) day Local.

(** The "date validity" step that follows both month shifts: the shifted
    date, unless [day] exceeds the length of the month the shifted date
    fell in. *)
Definition checkValidity (Local : Location) (shifted : Time) (day : Z)
    : Time :=
  let lastDayOfMonth :=
    Day (Date (Year shifted) (Month shifted + 1) 0 Local) in
  if lastDayOfMonth <? day
  then Date (Year shifted) (Month shifted) lastDayOfMonth Local
  else shifted.

(** The variable [lastResetDate] of [GetInstanceInfo]; its two branches
    compute it alike, from [resetDayOfMonth] or from [expiryDay]. *)
Definition lastResetDate (Local : Location) (now : Time) (day : Z) : Time :=
  let year := Year now in
  let month := Month now in
  let current := currentMonthResetDate Local now day in
  if Before current now || Equal current (Truncate now (24 * Hour))
  then current
  else
    let lastMonthYear := if month - 1 <? 1 then year - 1 else year in
    let lastMonthMonth := if month - 1 <? 1 then 12 else month - 1 in
    checkValidity Local (Date lastMonthYear lastMonthMonth day Local) day.

(** The variable [nextResetDate] of [GetInstanceInfo]. *)
Definition nextResetDate (Local : Location) (now : Time) (day : Z) : Time :=
  let year := Year now in
  let month := Month now in
  let current := currentMonthResetDate Local now day in
  if After current now
  then current
  else
    let nextMonthYear := if 12 <? month + 1 then year + 1 else year in
    let nextMonthMonth := if 12 <? month + 1 then 1 else month + 1 in
    checkValidity Local (Date nextMonthYear nextMonthMonth day Local) day.

(** [formatDuration(time.Duration(daysDiff*24) * time.Hour)]. *)
Definition cycleDuration (now last : Time) : string :=
  let daysDiff := calculateDaysDifference now last in
  formatDuration (wrap64 (wrap64 (daysDiff * 24) * Hour)).

(** [shiftToPreviousMonth], the helper of [calculateLastMonthExpiry]. *)
Definition shiftToPreviousMonth (Local : Location) (year month day : Z)
    : Time :=
  let prevMonth := if month - 1 <? 1 then 12 else month - 1 in
  let prevYear := if month - 1 <? 1 then year - 1 else year in
  let daysInPrevMonth := Day (Date prevYear (prevMonth + 1) 0 Local) in
  if daysInPrevMonth <? day
  then Date prevYear prevMonth daysInPrevMonth Local
  else Date prevYear prevMonth day Local.

(** [calculateLastMonthExpiry], which [GetInstanceInfo] no longer calls. *)
Definition calculateLastMonthExpiry (Local : Location)
    (expiryTime now : Time) : Time :=
  let expiryDay := Day expiryTime in
  let currentYear := Year now in
  let currentMonth := Month now in
  let currentDay := Day now in
  let daysInCurrentMonth :=
    Day (Date currentYear (currentMonth + 1) 0 Local) in
  if expiryDay <=? currentDay then
    let lastMonthExpiry :=
      if expiryDay <=? daysInCurrentMonth
      then Date currentYear currentMonth expiryDay Local
      else Date currentYear currentMonth daysInCurrentMonth Local in
    if After lastMonthExpiry now
    then shiftToPreviousMonth Local currentYear currentMonth expiryDay
    else lastMonthExpiry
  else shiftToPreviousMonth Local currentYear currentMonth expiryDay.

(** *** Queries *)

Definition QueryPrometheus (c : Client) (query : string) (queryTime : Time)
    : Res Value :=
  orReturn (call (apiQuery c query queryTime))
    "Failed to query Prometheus: %v" Ok.

Definition GetFloatFromPromResult (result : Value) : float64 :=
  match result with
  | ValVector (s :: _) => sValue s
  | _ => zero
  end.

Definition queryNodeBootTime (c : Client) (labels : Metric)
    (queryTime : Time) : Res string :=
  let labelMatchers := BuildLabelMatchers labels in
  let bootTimeQuery :=
    "time() - node_boot_time_seconds{" ++ labelMatchers ++ "}" in
  orReturn (QueryPrometheus c bootTimeQuery queryTime)
    "Failed to query node boot time: %v"
    (fun bootTimeResult =>
       match bootTimeResult with
       | ValVector (_ :: _) =>
           let bootTime :=
             wrap64 (toInt64 (GetFloatFromPromResult bootTimeResult)
                     * Second) in
           Ok (formatDuration bootTime)
       | _ => Ok ""
       end).

(** The device filter shared by the traffic and rate queries. *)
Definition deviceMatcher : string :=
  "device=~" ++ dquote
  ++ "eth.*|ens.*|eno.*|enp.*|enx.*|enX.*|wlan.*|venet.*" ++ dquote.

(** [metric{labelMatchers, device=~"..."}], or [metric{device=~"..."}]
    when there is no label matcher. *)
Definition deviceSelector (metric labelMatchers : string) : string :=
  if (String.length labelMatchers =? 0)%nat
  then metric ++ "{" ++ deviceMatcher ++ "}"
  else metric ++ "{" ++ labelMatchers ++ ", " ++ deviceMatcher ++ "}".

Definition increaseQuery (metric labelMatchers duration : string) : string :=
  "sum(increase(" ++ deviceSelector metric labelMatchers
  ++ "[" ++ duration ++ "]))".

(** [result.(model.Vector)[0].Value] under the guard
    [result.Type() == model.ValVector && result.(model.Vector).Len() > 0],
    the zero of the named result otherwise. *)
Definition firstSample (result : Value) : float64 :=
  match result with
  | ValVector (s :: _) => sValue s
  | _ => zero
  end.

Definition queryTrafficForDuration (c : Client) (labels : Metric)
    (duration : string) (now : Time) : Res (float64 * float64) :=
  let labelMatchers := BuildLabelMatchers labels in
  let transmitQuery :=
    increaseQuery "node_network_transmit_bytes_total" labelMatchers duration in
  let receiveQuery :=
    increaseQuery "node_network_receive_bytes_total" labelMatchers duration in
  orReturn (QueryPrometheus c transmitQuery now)
    "Failed to query transmit bytes: %v"
    (fun transmitResult =>
  orReturn (QueryPrometheus c receiveQuery now)
    "Failed to query receive bytes: %v"
    (fun receiveResult =>
  Ok (firstSample transmitResult, firstSample receiveResult))).

Definition GetDailyTraffic (c : Client) (labels : Metric) (now : Time)
    : Res (float64 * float64) :=
  let startOfDay := Date (Year now) (Month now) (Day now) (zone now) in
  let durationCurrentDay := fmt_0f (Hours (Sub now startOfDay)) ++ "h" in
  queryTrafficForDuration c labels durationCurrentDay now.

Definition QueryRange (c : Client) (query : string)
    (now start end_ : Time) (step : Duration) : Res float64 :=
  orReturn (call (apiQueryRange c query start end_ step))
    "Failed to query yesterday transmit bytes: %v"
    (fun queryResult =>
       match queryResult with
       | ValMatrix (stream :: _) =>
           match rev (ssValues stream) with
           | lastValue :: _ => Ok (pValue lastValue)
           | [] => Panic "index out of range [-1]"
           end
       | _ => Ok zero
       end).

Definition GetYesterdayTraffic (c : Client) (labels : Metric) (now : Time)
    : Res (float64 * float64) :=
  let yesterday := Add now (- 24 * Hour) in
  let startOfYesterday :=
    Date (Year yesterday) (Month yesterday) (Day yesterday) (zone now) in
  let endOfYesterday :=
    Add (Date (Year now) (Month now) (Day now) (zone now)) (- Second) in
  let step := Hour * 24 in
  let labelMatchers := BuildLabelMatchers labels in
  let transmitQuery :=
    increaseQuery "node_network_transmit_bytes_total" labelMatchers "1d" in
  let receiveQuery :=
    increaseQuery "node_network_receive_bytes_total" labelMatchers "1d" in
  orReturn
    (QueryRange c transmitQuery now startOfYesterday endOfYesterday step)
    "failed to query yesterday transmit bytes: %v"
    (fun transmitResult =>
  orReturn
    (QueryRange c receiveQuery now startOfYesterday endOfYesterday step)
    "failed to query yesterday transmit bytes: %v"
    (fun receiveResult =>
  Ok (transmitResult, receiveResult))).

Definition GetNaturalMonthTraffic (c : Client) (labels : Metric) (now : Time)
    : Res (float64 * float64) :=
  let startOfMonth := Date (Year now) (Month now) 1 (zone now) in
  let durationCurrentMonth := fmt_0f (Hours (Sub now startOfMonth)) ++ "h" in
  queryTrafficForDuration c labels durationCurrentMonth now.

(** The seven results of [FetchResourceMetrics]. *)
Record ResourceMetrics : Type := mkResource {
  cpuUsage : float64;
  memoryUsage : float64;
  diskUsage : float64;
  diskTotal : float64;
  diskAvaileble : float64;
  memTotal : float64;
  memAvaileble : float64
}.

Definition zeroResource : ResourceMetrics :=
  mkResource zero zero zero zero zero zero zero.

(** [{labelMatchers, rest}], or [{rest}] without label matchers. *)
Definition scoped (labelMatchers rest : string) : string :=
  if (0 <? String.length labelMatchers)%nat
  then "{" ++ labelMatchers ++ ", " ++ rest ++ "}"
  else "{" ++ rest ++ "}".

Definition FetchResourceMetrics (c : Client) (labels : Metric)
    (duration : string) (now : Time) : Res ResourceMetrics :=
  let labelMatchers := BuildLabelMatchers labels in
  let has := (0 <? String.length labelMatchers)%nat in
  let notRootfs := "fstype!=" ++ dquote ++ "rootfs" ++ dquote in
  let extOrXfs := "fstype=~" ++ dquote ++ "ext4|xfs" ++ dquote in
  let cpuQuery :=
    "avg(rate(node_cpu_seconds_total"
    ++ scoped labelMatchers ("mode!=" ++ dquote ++ "idle" ++ dquote)
    ++ "[" ++ duration ++ "])) * 100" in
  let memoryQuery :=
    "(1 - avg(node_memory_MemAvailable_bytes{" ++ labelMatchers
    ++ "}) / avg(node_memory_MemTotal_bytes{" ++ labelMatchers ++ "}))*100" in
  let diskQuery :=
    "(1 - avg(node_filesystem_avail_bytes" ++ scoped labelMatchers notRootfs
    ++ ") / avg(node_filesystem_size_bytes" ++ scoped labelMatchers notRootfs
    ++ "))*100" in
  let diskTotalQuery :=
    "node_filesystem_size_bytes"
    ++ scoped labelMatchers (notRootfs ++ "," ++ extOrXfs) in
  let diskAvailebleQuery :=
    "node_filesystem_avail_bytes"
    ++ scoped labelMatchers (notRootfs ++ "," ++ extOrXfs) in
  let memTotalQuery :=
    if has then "node_memory_MemTotal_bytes{" ++ labelMatchers ++ "}"
    else "node_memory_MemTotal_bytes" in
  let memAvailebleQuery :=
    if has then "node_memory_MemAvailable_bytes{" ++ labelMatchers ++ "}"
    else "node_memory_MemAvailable_bytes" in
  orReturn (QueryPrometheus c cpuQuery now)
    "Failed to query CPU usage: %v" (fun cpuResult =>
  orReturn (QueryPrometheus c memoryQuery now)
    "Failed to query memory usage: %v" (fun memoryResult =>
  orReturn (QueryPrometheus c memTotalQuery now)
    "Failed to query memory total: %v" (fun memTotalResult =>
  orReturn (QueryPrometheus c memAvailebleQuery now)
    "Failed to query memory availeble: %v" (fun memAvailebleResult =>
  orReturn (QueryPrometheus c diskQuery now)
    "Failed to query disk usage: %v" (fun diskResult =>
  orReturn (QueryPrometheus c diskTotalQuery now)
    "Failed to query disk total: %v" (fun diskTotalResult =>
  orReturn (QueryPrometheus c diskAvailebleQuery now)
    "Failed to query disk availeble: %v" (fun diskAvailebleResult =>
  Ok (mkResource
        (GetFloatFromPromResult cpuResult)
        (GetFloatFromPromResult memoryResult)
        (GetFloatFromPromResult diskResult)
        (GetFloatFromPromResult diskTotalResult)
        (GetFloatFromPromResult diskAvailebleResult)
        (GetFloatFromPromResult memTotalResult)
        (GetFloatFromPromResult memAvailebleResult))))))))).

Definition rateQuery (metric labelMatchers : string) : string :=
  "sum(rate(" ++ deviceSelector metric labelMatchers ++ "[1m]))".

Definition QueryNetworkRate (c : Client) (labels : Metric) (now : Time)
    : Res (float64 * float64) :=
  let labelMatchers := BuildLabelMatchers labels in
  let uploadQuery :=
    rateQuery "node_network_transmit_bytes_total" labelMatchers in
  let downloadQuery :=
    rateQuery "node_network_receive_bytes_total" labelMatchers in
  orReturn (QueryPrometheus c uploadQuery now)
    "Failed to query upload rate: %v" (fun uploadResult =>
  orReturn (QueryPrometheus c downloadQuery now)
    "Failed to query download rate: %v" (fun downloadResult =>
  Ok (GetFloatFromPromResult uploadResult,
      GetFloatFromPromResult downloadResult))).

(** *** The instance report *)

(** The local variables of [GetInstanceInfo] from which the returned text
    is printed. *)
Record InstanceReport : Type := mkReport {
  instanceStr : string;
  infoStr : string;
  bootTime : string;
  expiryStr : string;
  priceStr : string;
  cycleStr : string;
  timeLeft : Z * Z * Z;
  resetDateStr : string;
  duration : string;
  resetTraffic : float64 * float64;
  naturalMonthTraffic : float64 * float64;
  yesterdayTraffic : float64 * float64;
  naturalDailyTraffic : float64 * float64;
  networkRate : float64 * float64;
  resources : ResourceMetrics
}.

(** The three lines printed for a (transmit, receive) pair. *)
Definition trafficLines (t : float64 * float64) : string :=
  "  上传: " ++ FormatBytes (fst t) ++ nl
  ++ "  下载: " ++ FormatBytes (snd t) ++ nl
  ++ "  总共: " ++ FormatBytes (add (snd t) (fst t)) ++ nl.

(** The text [info] that [GetInstanceInfo] builds with [fmt.Sprintf]. *)
Definition render (r : InstanceReport) : string :=
  let '(yearsLeft, monthsLeft, daysLeft) := timeLeft r in
  let res := resources r in
  "<b>实例:</b> " ++ instanceStr r ++ "-->" ++ infoStr r ++ nl
  ++ (if (bootTime r =? "")%string then ""
      else "<b>在线时长:</b> " ++ bootTime r ++ nl)
  ++ "<b>续费日期:</b> " ++ expiryStr r ++ nl
  ++ "<b>续费价格:</b> " ++ priceStr r ++ "(" ++ cycleStr r ++ ")" ++ nl
  ++ "<b>剩余时间:</b> " ++ fmt_d yearsLeft ++ " 年 " ++ fmt_d monthsLeft
  ++ " 月 " ++ fmt_d daysLeft ++ " 天" ++ nl
  ++ "<b>重置日期:</b> " ++ resetDateStr r ++ nl
  ++ nl ++ "<b>重置日流量:</b>" ++ nl ++ trafficLines (resetTraffic r)
  ++ nl ++ "<b>月流量:</b>" ++ nl ++ trafficLines (naturalMonthTraffic r)
  ++ nl ++ "<b>昨日流量:</b>" ++ nl ++ trafficLines (yesterdayTraffic r)
  ++ nl ++ "<b>日流量:</b>" ++ nl ++ trafficLines (naturalDailyTraffic r)
  ++ nl ++ "<b>网络速率:</b>" ++ nl
  ++ "  上传: " ++ FormatBytesPerSecond (fst (networkRate r)) ++ nl
  ++ "  下载: " ++ FormatBytesPerSecond (snd (networkRate r)) ++ nl
  ++ nl ++ "<b>资源使用情况:</b>" ++ nl
  ++ "  CPU 使用率: " ++ fmt_2f (cpuUsage res) ++ "%" ++ nl
  ++ "  内存使用率: " ++ fmt_2f (memoryUsage res) ++ "%(共: "
  ++ FormatBytes (memTotal res) ++ ",可用: "
  ++ FormatBytes (memAvaileble res) ++ ")" ++ nl
  ++ "  磁盘使用率: " ++ fmt_2f (diskUsage res) ++ "%(共: "
  ++ FormatBytes (diskTotal res) ++ ",可用: "
  ++ FormatBytes (diskAvaileble res) ++ ")" ++ nl.

(** The day of the month that anchors the cycle: the day of the
    [reset_day] label when the label is not empty, the day of the expiry
    date otherwise. *)
Definition anchorDay (expiryTime : Time) (resetDayStr : string) : Res Z :=
  if (resetDayStr =? "")%string
  then Ok (Day expiryTime)
  else orReturn (Parse resetDayStr) "Failed to parse reset day: %v"
         (fun resetDay => Ok (Day resetDay)).

(** [yyyy-mm-dd] of [fmt.Sprintf("%d-%02d-%02d", ...)]. *)
Definition dateStr (t : Time) : string :=
  fmt_d (Year t) ++ "-" ++ fmt_02d (Month t) ++ "-" ++ fmt_02d (Day t).

(** The body of [GetInstanceInfo] up to the printing: [now] is the reading
    of [time.Now()], in the zone [Local]. *)
Definition instanceReport (c : Client) (Local : Location) (nowNano : Z)
    (labels : Metric) : Res InstanceReport :=
  let now := mkTime nowNano Local in
  let expiryStr := lookup labels "expiry" in
  let resetDayStr := lookup labels "reset_day" in
  let priceStr := lookup labels "price" in
  let infoStr := lookup labels "info" in
  let cycleStr := lookup labels "cycle" in
  orReturn (Parse expiryStr) "Failed to parse expiry date: %v"
    (fun expiryTime =>
  match anchorDay expiryTime resetDayStr with
  | Err e => Err e
  | Panic msg => Panic msg
  | Ok day =>
  let lastReset := lastResetDate Local now day in
  let nextReset := nextResetDate Local now day in
  let duration := cycleDuration now lastReset in
  let resetDateStr := dateStr nextReset in
  orReturn (queryTrafficForDuration c labels duration now)
    "Failed to query reset day traffic: %v" (fun resetTraffic =>
  let timeLeft := calculateTimeLeft (Sub expiryTime now) in
  orLog (queryNodeBootTime c labels now) "" (fun bootTime =>
  orReturn (GetNaturalMonthTraffic c labels now)
    "Failed to query natural month traffic: %v" (fun naturalMonth =>
  orReturn (GetYesterdayTraffic c labels now)
    "Failed to query yesterday traffic: %v" (fun yesterday =>
  orReturn (GetDailyTraffic c labels now)
    "Failed to query natural daily traffic: %v" (fun naturalDaily =>
  orLog (QueryNetworkRate c labels now) (zero, zero) (fun networkRate =>
  orLog (FetchResourceMetrics c labels duration now) zeroResource
    (fun resources =>
  Ok (mkReport (lookup labels "instance") infoStr bootTime expiryStr
        priceStr cycleStr timeLeft resetDateStr duration resetTraffic
        naturalMonth yesterday naturalDaily networkRate resources))))))))
  end).

Definition GetInstanceInfo (c : Client) (Local : Location) (nowNano : Z)
    (labels : Metric) : Res string :=
  match instanceReport c Local nowNano labels with
  | Ok r => Ok (render r)
  | Err e => Err e
  | Panic msg => Panic msg
  end.

(** The cycle window that [GetInstanceInfo] derives from the labels and
    the clock: [(lastResetDate, nextResetDate)]. *)
Definition cycleWindow (Local : Location) (nowNano : Z) (labels : Metric)
    : Res (Time * Time) :=
  let now := mkTime nowNano Local in
  orReturn (Parse (lookup labels "expiry")) "Failed to parse expiry date: %v"
    (fun expiryTime =>
  match anchorDay expiryTime (lookup labels "reset_day") with
  | Err e => Err e
  | Panic msg => Panic msg
  | Ok day => Ok (lastResetDate Local now day, nextResetDate Local now day)
  end).

End Prometheus.

(** ** The steps a report cannot do without *)

Module Critical.

Import GoTime Model Prometheus.


End Critical.

(** ** Concrete label sets, clocks and backends *)

Module Scenario.

Import GoInt GoStr F64 GoTime Model Prometheus.

(** The instant of [hour]:[minute] UTC on [year]-[month]-[day]. *)
Definition at_ (year month day hour minute : Z) : Z :=
  unixNano (Date year month day UTC) + hour * Hour + minute * Minute.

(** A host whose expiry date falls on the 31st, without [reset_day]. *)
Definition expiry31 : Metric :=
  [("instance", "host:9100"); ("expiry", "2024-03-31");
   ("price", "5"); ("cycle", "month"); ("info", "box")].

(** The same host with a [reset_day] label. *)
Definition withResetDay : Metric :=
  [("instance", "host:9100"); ("expiry", "2024-03-31");
   ("reset_day", "2024-01-15")].

(** A host whose expiry date falls on the 10th. *)
Definition expiry10 : Metric :=
  [("instance", "host:9100"); ("expiry", "2024-03-10")].

(** Only keys that [BuildLabelMatchers] skips. *)
Definition onlySkipped : Metric :=
  [("__name__", "up"); ("expiry", "2024-03-31"); ("price", "5");
   ("info", "box"); ("cycle", "month"); ("job", "node"); ("cpu", "0")].


(** A backend that has no series for any query. *)
Definition noData : Client :=
  mkClient (fun _ _ => Answer (ValVector []))
           (fun _ _ _ _ => Answer (ValMatrix [])).


(** A backend on which every instant query and every range query fails. *)
Definition down : Client :=
  mkClient (fun _ _ => Failure (ApiError "connection refused"))
           (fun _ _ _ _ => Failure (ApiError "connection refused")).


(** A range-query backend whose first series carries no float sample (a
    stream of native histograms decodes to this). *)
Definition emptySeries : Client :=
  mkClient (fun _ _ => Answer (ValVector []))
           (fun _ _ _ _ => Answer (ValMatrix [mkStream [] []])).

End Scenario.

(** ** Shapes of printed numbers *)

Module Shape.

Import GoStr.

Definition isDigit (c : ascii) : bool :=
  (48 <=? nat_of_ascii c)%nat && (nat_of_ascii c <=? 57)%nat.

Fixpoint allDigits (s : string) : bool :=
  match s with
  | EmptyString => true
  | String c s' => isDigit c && allDigits s'
  end.

(** An optional minus sign, at least one digit, a point, two digits. *)
Definition twoDecimals (s : string) : Prop :=
  exists sign int d1 d2,
    s = (sign ++ int ++ "." ++ String d1 (String d2 ""))%string /\
    (sign = "" \/ sign = "-") /\ int <> "" /\ allDigits int = true /\
    isDigit d1 = true /\ isDigit d2 = true.

(** The binary64 value [2^k], for [k] within the normal range. *)
Definition pow2 (k : Z) : F64.float64 :=
  S754_finite false 4503599627370496 (k - 52).

(** [x] is a binary64 value: its mantissa and exponent are canonical. *)
Definition isBinary64 (x : F64.float64) : bool :=
  valid_binary F64.prec F64.emax x.

End Shape.

(** ** Exhaustive checks over one Gregorian cycle *)

Module Calendar.

Import GoTime.

(** Days in 400 Gregorian years. *)
Definition cycleDays : Z := 146097.

(** [p] holds on the [n] integers from [from] on. *)
Fixpoint allFrom (n : nat) (from : Z) (p : Z -> bool) : bool :=
  match n with
  | O => true
  | S n' => p from && allFrom n' (from + 1) p
  end.

(** The date of the day numbered [n] is a valid date and numbers back to
    [n]. *)
Definition dayFacts (n : Z) : bool :=
  let '(year, month, day) := civilFromDays n in
  (1 <=? month) && (month <=? 12) && (1 <=? day)
  && (day <=? daysIn month year) && (normDays year month day =? n).

(** The month after [month] starts [daysIn month year] days after it, and
    the month before starts 28 to 31 days before it; the two neighbours
    are taken as [GetInstanceInfo] takes them. *)
Definition monthFacts (year month : Z) : bool :=
  let start := normDays year month 1 in
  let lastMonthYear := if month - 1 <? 1 then year - 1 else year in
  let lastMonthMonth := if month - 1 <? 1 then 12 else month - 1 in
  let nextMonthYear := if 12 <? month + 1 then year + 1 else year in
  let nextMonthMonth := if 12 <? month + 1 then 1 else month + 1 in
  let before := normDays lastMonthYear lastMonthMonth 1 in
  let after := normDays nextMonthYear nextMonthMonth 1 in
  (after =? start + daysIn month year)
  && (before + 28 <=? start) && (start <=? before + 31).

Definition monthFactsYear (year : Z) : bool :=
  allFrom 12 1 (monthFacts year).

(** The [day]-th day counted from day number [start] falls in the month
    [(year, month)], whose length is [len], or in the month
    [(year', month')], whose length is [len'], and that length is at
    least [day]. *)
Definition validityIdleDay (year month len year' month' len' start : Z)
    (day : Z) : bool :=
  let '(y, m, _) := civilFromDays (start + day - 1) in
  ((y =? year) && (m =? month) && (day <=? len))
  || ((y =? year') && (m =? month') && (day <=? len')).

(** The length of the month in which a date falls, as the validity step
    of [GetInstanceInfo] computes it. *)
Definition lastDayOfMonth (year month : Z) : Z :=
  snd (civilFromDays (normDays year (month + 1) 0)).

(** For each of the days 1..31 counted from the first of [month]: the
    date falls in [month] or in the month after, and the length of the
    month it falls in is at least the day asked for. *)
Definition validityIdleMonth (year month : Z) : bool :=
  let year' := if 12 <? month + 1 then year + 1 else year in
  let month' := if 12 <? month + 1 then 1 else month + 1 in
  allFrom 31 1
    (validityIdleDay year month (lastDayOfMonth year month)
       year' month' (lastDayOfMonth year' month')
       (normDays year month 1)).

Definition validityIdleYear (year : Z) : bool :=
  allFrom 12 1 (validityIdleMonth year).

End Calendar.

(** ** Package prometheus: the fleet-wide queries *)

Module Fleet.

Import GoStr F64 GoTime Model Prometheus.

(** [FetchInstances]: the label sets of the samples of an instant vector,
    in the order of the answer. The type assertion
    [result.(model.Vector)] has no guard: any other kind of answer is a
    run-time panic. [now] is the reading of [time.Now()]. *)
Definition FetchInstances (c : Client) (query : string) (now : Time)
    : Res (list Metric) :=
  orReturn (call (apiQuery c query now)) "Failed to query Prometheus: %v"
    (fun result =>
       match result with
       | ValVector vector => Ok (map sMetric vector)
       | _ => Panic "interface conversion: model.Value is not model.Vector"
       end).

(** [{device=~"..."}], the selector of the fleet-wide traffic queries. *)
Definition devices : string := "{" ++ deviceMatcher ++ "}".

(** [trafficMap[instance] += value] on a Go map from instance to total: an
    association list without repeated keys; a key that is not in the map
    starts from the zero value. *)
Fixpoint addTo (trafficMap : list (string * float64)) (instance : string)
    (value : float64) : list (string * float64) :=
  match trafficMap with
  | [] => [(instance, add zero value)]
  | (k, v) :: rest =>
      if (k =? instance)%string then (k, add v value) :: rest
      else (k, v) :: addTo rest instance value
  end.

(** The loop over the points of one answer; an answer that is not a
    vector adds nothing. *)
Definition addVector (trafficMap : list (string * float64))
    (result : Value) : list (string * float64) :=
  match result with
  | ValVector vector =>
      fold_left
        (fun m point =>
           addTo m (lookup (sMetric point) "instance") (sValue point))
        vector trafficMap
  | _ => trafficMap
  end.

(** The loop [for instance, totalValue := range trafficMap] that keeps the
    highest total, started from [("", 0)]; [entries] are the entries of
    the map in the order in which [range] happens to visit them. *)
Definition highest (entries : list (string * float64)) : string * float64 :=
  fold_left
    (fun best entry => if gtb (snd entry) (snd best) then entry else best)
    entries ("", zero).

Section Range.

(** The order in which [range] visits a map is not specified: it is a
    parameter, any rearrangement of the entries. *)
Variable rangeOrder : list (string * float64) -> list (string * float64).

(** The body shared by the three rankings by total traffic. *)
Definition highestTotal (c : Client) (queryUpload queryDownload : string)
    (uploadFailed downloadFailed : string) (now : Time)
    : Res (string * float64) :=
  orReturn (QueryPrometheus c queryUpload now) uploadFailed
    (fun resultUpload =>
  orReturn (QueryPrometheus c queryDownload now) downloadFailed
    (fun resultDownload =>
  let trafficMap := addVector (addVector [] resultUpload) resultDownload in
  Ok (highest (rangeOrder trafficMap)))).

Definition sumIncrease (metric duration : string) : string :=
  "sum by (instance) (increase(" ++ metric ++ devices
  ++ "[" ++ duration ++ "]))".

Definition GetHighestTotalTrafficInstance (c : Client) (now : Time)
    : Res (string * float64) :=
  highestTotal c
    (sumIncrease "node_network_transmit_bytes_total" "1d")
    (sumIncrease "node_network_receive_bytes_total" "1d")
    "Failed to query upload traffic for total calculation: %v"
    "Failed to query download traffic for total calculation: %v" now.

Definition GetHighestDailyTotalTrafficInstance (c : Client) (now : Time)
    : Res (string * float64) :=
  let startOfDay := Date (Year now) (Month now) (Day now) (zone now) in
  let durationCurrentDay := fmt_0f (Hours (Sub now startOfDay)) ++ "h" in
  highestTotal c
    (sumIncrease "node_network_transmit_bytes_total" durationCurrentDay)
    (sumIncrease "node_network_receive_bytes_total" durationCurrentDay)
    "Failed to query upload traffic for daily total calculation: %v"
    "Failed to query download traffic for daily total calculation: %v" now.

Definition GetHighestMonthlyTotalTrafficInstance (c : Client) (now : Time)
    : Res (string * float64) :=
  let startOfMonth := Date (Year now) (Month now) 1 (zone now) in
  let durationCurrentMonth := fmt_0f (Hours (Sub now startOfMonth)) ++ "h" in
  highestTotal c
    (sumIncrease "node_network_transmit_bytes_total" durationCurrentMonth)
    (sumIncrease "node_network_receive_bytes_total" durationCurrentMonth)
    "Failed to query upload traffic for monthly total calculation: %v"
    "Failed to query download traffic for monthly total calculation: %v" now.

End Range.

(** The total of [instance] over the points of the two answers, added in
    the order of the answers. *)
Definition totalOf (instance : string) (points : list Sample) : float64 :=
  fold_left
    (fun total point =>
       if (lookup (sMetric point) "instance" =? instance)%string
       then add total (sValue point) else total)
    points zero.

(** The points of an answer, none when it is not a vector. *)
Definition pointsOf (result : Value) : list Sample :=
  match result with
  | ValVector vector => vector
  | _ => []
  end.

End Fleet.

(** ** Package bot: menus, pages and page callbacks *)

Module Bot.

Import GoInt GoStr GoTime Model Prometheus Fleet.

Definition mainMenuID : string := "main".
Definition instanceMenuID : string := "instance".
Definition instanceOverviewMenuID : string := "instance_overview".
Definition otherMenuID : string := "other".
Definition allInstancesMenuID : string := "all_instances".
Definition onlineInstancesMenuID : string := "online_instances".
Definition offlineInstancesMenuID : string := "offline_instances".

(** *** The menu stack: a slice whose last element is the current menu *)

Definition currentMenu (menuStack : list string) : string :=
  List.last menuStack mainMenuID.

Definition pushMenu (menuStack : list string) (menuID : string)
    : list string :=
  (menuStack ++ [menuID])%list.

(** [popMenu]: the stack it leaves and the menu it returns. *)
Definition popMenu (menuStack : list string) : list string * string :=
  let menuStack' :=
    if (1 <? List.length menuStack)%nat then removelast menuStack
    else menuStack in
  (menuStack', currentMenu menuStack').

Definition getPreviousMenuID (menuStack : list string) : string :=
  if (1 <? List.length menuStack)%nat
  then nth (List.length menuStack - 2) menuStack mainMenuID
  else mainMenuID.

(** *** strings and strconv *)

(** [strings.HasPrefix]. *)
Fixpoint HasPrefix (s prefix : string) {struct prefix} : bool :=
  match prefix with
  | EmptyString => true
  | String p prefix' =>
      match s with
      | EmptyString => false
      | String ch rest => Ascii.eqb ch p && HasPrefix rest prefix'
      end
  end.

(** [strings.Split(s, sep)] for a separator of one byte. *)
Fixpoint Split (s : string) (sep : ascii) : list string :=
  match s with
  | EmptyString => [""]
  | String ch rest =>
      if Ascii.eqb ch sep then "" :: Split rest sep
      else match Split rest sep with
           | first :: others => String ch first :: others
           | [] => [String ch ""]
           end
  end.

(** The value of a run of decimal digits after [acc]; [None] on any other
    byte. *)
Fixpoint parseDigits (s : string) (acc : Z) : option Z :=
  match s with
  | EmptyString => Some acc
  | String ch rest =>
      match digitVal ch with
      | Some d => parseDigits rest (acc * 10 + d)
      | None => None
      end
  end.

(** [strconv.Atoi]: an optional sign, then at least one decimal digit and
    nothing else, the value within [int]; [None] stands for the error. *)
Definition Atoi (s : string) : option Z :=
  let '(negative, body) :=
    match s with
    | String "-" rest => (true, rest)
    | String "+" rest => (false, rest)
    | _ => (false, s)
    end in
  match body with
  | EmptyString => None
  | _ =>
      match parseDigits body 0 with
      | Some n =>
          let v := if negative then - n else n in
          if inInt64 v then Some v else None
      | None => None
      end
  end.

(** *** Page callbacks *)

(** What [handleCallback] makes of the callback data before it looks at
    menus and instances: not a page callback, a page callback that is
    logged and dropped, or the menu and the page to show. *)
Inductive PageCallback : Type :=
  | NotAPage
  | InvalidPage
  | TurnTo (menuID : string) (page : Z).

Definition pageCallback (data : string) : PageCallback :=
  if HasPrefix data "prev_" || HasPrefix data "next_" then
    let parts := Split data "_" in
    if (List.length parts <? 3)%nat then InvalidPage
    else
      match Atoi (List.last parts "") with
      | None => InvalidPage
      | Some page => TurnTo (Join (removelast (tl parts)) "_") page
      end
  else NotAPage.

(** [fmt.Sprintf("prev_%s_%d", menuID, page)] and its [next_] twin. *)
Definition prevData (menuID : string) (page : Z) : string :=
  "prev_" ++ menuID ++ "_" ++ fmt_d page.

Definition nextData (menuID : string) (page : Z) : string :=
  "next_" ++ menuID ++ "_" ++ fmt_d page.

(** *** The paged instance menus *)

Record Button : Type := mkButton { Text : string; CallbackData : string }.

(** What a page function returns: a new message ([messageID] was 0) or
    the edit of the message [messageID]; both carry the text, the rows of
    the inline keyboard and the parse mode. *)
Inductive Chattable : Type :=
  | NewMessage (chatID : Z) (text : string) (rows : list (list Button))
      (parseMode : string)
  | EditMessageText (chatID messageID : Z) (text : string)
      (rows : list (list Button)) (parseMode : string).



(** The state of a [BotInstance] that the pages read. *)
Record BotInstance : Type := mkBot {
  PrometheusClient : Client;
  PageSize : Z;
  menuStack : list string
}.

Definition upQuery (menuID : string) : string :=
  let up := "up{job=" ++ dquote ++ "node-exporter" ++ dquote ++ "}" in
  if (menuID =? onlineInstancesMenuID)%string then up ++ "==1"
  else if (menuID =? offlineInstancesMenuID)%string then up ++ "==0"
  else up.

(** [fetchInstancesForMenu]: an error of the query is logged and the nil
    slice that came with it is returned. *)
Definition fetchInstancesForMenu (b : BotInstance) (menuID : string)
    (now : Time) : Res (list Metric) :=
  orLog (FetchInstances (PrometheusClient b) (upQuery menuID) now) []
    (fun instances => Ok instances).

(** The loop [for i := startIndex; i < endIndex; i++] over
    [instances[i]]: one row of one button for each instance; a negative
    index is a run-time panic. *)
Definition instanceRows (instances : list Metric) (startIndex endIndex : Z)
    : Res (list (list Button)) :=
  if (startIndex <? endIndex) && (startIndex <? 0)
  then Panic "index out of range"
  else
    Ok (map (fun instance =>
               let instanceName := lookup instance "instance" in
               [mkButton instanceName instanceName])
          (firstn (Z.to_nat (endIndex - startIndex))
             (skipn (Z.to_nat startIndex) instances))).

(** The body shared by [allInstancesMenuPage], [onlineInstancesMenuPage]
    and [offlineInstancesMenuPage], which differ by the menu only. *)
Definition instancesMenuPage (menuID : string) (b : BotInstance)
    (chatID messageID page : Z) (now : Time) : Res Chattable :=
  match fetchInstancesForMenu b menuID now with
  | Err e => Err e
  | Panic msg => Panic msg
  | Ok instances =>
  let startIndex := wrap64 (wrap64 (page - 1) * PageSize b) in
  let endIndex := wrap64 (startIndex + PageSize b) in
  let maxInstance := Z.of_nat (List.length instances) in
  let menuTitle := "请选择一个实例(" ++ fmt_d maxInstance ++ ")" in
  let endIndex := if maxInstance <? endIndex then maxInstance else endIndex in
  match instanceRows instances startIndex endIndex with
  | Err e => Err e
  | Panic msg => Panic msg
  | Ok rows =>
  let rows :=
    if 1 <? page
    then (rows
          ++ [[mkButton "上一页" (prevData menuID (wrap64 (page - 1)))]])%list
    else rows in
  let rows :=
    if endIndex <? maxInstance
    then (rows
          ++ [[mkButton "下一页" (nextData menuID (wrap64 (page + 1)))]])%list
    else rows in
  let rows :=
    (rows ++ [[mkButton "返回" instanceMenuID;
               mkButton "返回主菜单" mainMenuID]])%list in
  if messageID =? 0
  then Ok (NewMessage chatID (menuTitle ++ nl) rows "HTML")
  else Ok (EditMessageText chatID messageID (menuTitle ++ nl) rows "HTML")
  end
  end.


Definition onlineInstancesMenuPage : BotInstance -> Z -> Z -> Z -> Time
    -> Res Chattable :=
  instancesMenuPage onlineInstancesMenuID.

Definition offlineInstancesMenuPage : BotInstance -> Z -> Z -> Z -> Time
    -> Res Chattable :=
  instancesMenuPage offlineInstancesMenuID.

(** *** The menus of [handleCallback] *)

(** The callback data named by the two menu cases of the [switch]. *)
Definition isMenuID (data : string) : bool :=
  (data =? mainMenuID)%string || (data =? instanceMenuID)%string
  || (data =? otherMenuID)%string || (data =? instanceOverviewMenuID)%string
  || (data =? allInstancesMenuID)%string
  || (data =? onlineInstancesMenuID)%string
  || (data =? offlineInstancesMenuID)%string.

(** The menu stack that [handleCallback] leaves when the callback data
    names a menu: the data is no page callback and no
    ["instance_detail:"] callback, and the menu cases of the [switch] push
    it. [None] for any other data. *)
Definition menuCallback (menuStack : list string) (data : string)
    : option (list string) :=
  match pageCallback data with
  | NotAPage =>
      if HasPrefix data "instance_detail:" then None
      else if isMenuID data then Some (pushMenu menuStack data)
      else None
  | _ => None
  end.

End Bot.

(** ** Package utils *)

Module Utils.

Import GoTime.

(** The month before [(year, month)], as a turn of the loop steps to it. *)
Definition stepBack (year month : Z) : Z * Z :=
  if month =? 1 then (year - 1, 12) else (year, month - 1).

(** The variable [monthExpiry] of a turn: the day [dayOfMonth] of the
    month, or the last day of the month when the month is shorter. *)
Definition monthExpiry (Local : Location) (year month dayOfMonth : Z)
    : Time :=
  let lastDayOfPrevMonth := Day (Date year (month + 1) 0 Local) in
  if lastDayOfPrevMonth <? dayOfMonth
  then Date year month lastDayOfPrevMonth Local
  else Date year month dayOfMonth Local.

(** The loop [for { ... }] of [CalculateLastMonthExpiry], cut after
    [fuel] turns: [None] when it has not returned by then. The year is
    an unbounded integer; Go's [int] cannot wrap within the range of
    [time.Time]. *)
Fixpoint lastMonthExpiryLoop (fuel : nat) (Local : Location)
    (dayOfMonth year month : Z) (now : Time) : option Time :=
  match fuel with
  | O => None
  | S fuel' =>
      let '(year', month') := stepBack year month in
      let candidate := monthExpiry Local year' month' dayOfMonth in
      if negb (After candidate now) then Some candidate
      else lastMonthExpiryLoop fuel' Local dayOfMonth year' month' now
  end.

Definition CalculateLastMonthExpiry (fuel : nat) (Local : Location)
    (expiryTime now : Time) : option Time :=
  lastMonthExpiryLoop fuel Local (Day expiryTime) (Year expiryTime)
    (Month expiryTime) now.

End Utils.

(** * Properties *)

Import GoInt GoStr F64 GoTime Model Prometheus Shape Calendar Critical.

(** ** Label matchers *)

Lemma append_assoc (a b c : string) : ((a ++ b) ++ c)%string = (a ++ b ++ c)%string.
Proof.
  induction a as [|ch a IH]; simpl; [reflexivity | now rewrite IH].
Qed.

Lemma HasSuffix_comma_after_quote (x : string) :
  HasSuffix (x ++ dquote) "," = false.
Proof.
  induction x as [|ch x IH]; [reflexivity|].
  simpl. rewrite IH, orb_false_r.
  destruct (Ascii.eqb ch ","); [|reflexivity].
  destruct x; reflexivity.
Qed.

Lemma matcher_ends_with_quote (kv : string * string) :
  exists x, matcher kv = (x ++ dquote)%string.
Proof.
  exists (fst kv ++ "=" ++ dquote ++ snd kv)%string.
  unfold matcher. now rewrite !append_assoc.
Qed.

Lemma Join_matchers_shape (l : list (string * string)) :
  Join (map matcher l) "," = "" \/
  exists x, Join (map matcher l) "," = (x ++ dquote)%string.
Proof.
  induction l as [|kv l IH]; [now left|right].
  destruct l as [|kv' l].
  - apply matcher_ends_with_quote.
  - destruct IH as [IH|[x IH]].
    + exfalso. revert IH. simpl.
      destruct l; unfold matcher; destruct (fst kv'); discriminate.
    + exists (matcher kv ++ "," ++ x)%string.
      change (Join (map matcher (kv :: kv' :: l)) ",")
        with (matcher kv ++ "," ++ Join (map matcher (kv' :: l)) ",")%string.
      now rewrite IH, !append_assoc.
Qed.

(** The loop keeps exactly the entries whose key is not skipped, in the
    order of iteration. *)
Lemma matcherStrings_filter (labels : Metric) :
  matcherStrings labels
  = map matcher (filter (fun kv => negb (skipped (fst kv))) labels).
Proof.
  induction labels as [|kv rest IH]; [reflexivity|].
  simpl. destruct (skipped (fst kv)); simpl; now rewrite IH.
Qed.

(** The trailing-comma trim of [BuildLabelMatchers] never fires. *)
Lemma BuildLabelMatchers_join (labels : Metric) :
  BuildLabelMatchers labels = Join (matcherStrings labels) ",".
Proof.
  unfold BuildLabelMatchers. rewrite matcherStrings_filter.
  destruct (Join_matchers_shape
              (filter (fun kv => negb (skipped (fst kv))) labels))
    as [E|[x E]]; rewrite E.
  - reflexivity.
  - now rewrite HasSuffix_comma_after_quote.
Qed.

Lemma skipped_iff (k : string) :
  skipped k = true <->
  k = "__name__" \/ k = "expiry" \/ k = "price" \/ k = "info" \/
  k = "cycle" \/ k = "job" \/ k = "cpu".
Proof.
  unfold skipped. rewrite !orb_true_iff, !String.eqb_eq. tauto.
Qed.

(** C8. [BuildLabelMatchers] joins with commas the terms [key="value"] of
    exactly the entries whose key is none of [__name__], [expiry],
    [price], [info], [cycle], [job], [cpu]: an entry is kept if and only
    if its key is outside that set, and a label set with no other key
    gives the empty string. *)
Theorem BuildLabelMatchers_excludes_seven_keys (labels : Metric) :
  let kept := filter (fun kv => negb (skipped (fst kv))) labels in
  BuildLabelMatchers labels = Join (map matcher kept) "," /\
  (forall k v, In (k, v) kept <->
     In (k, v) labels /\
     ~ (k = "__name__" \/ k = "expiry" \/ k = "price" \/ k = "info" \/
        k = "cycle" \/ k = "job" \/ k = "cpu")) /\
  ((forall k v, In (k, v) labels ->
      k = "__name__" \/ k = "expiry" \/ k = "price" \/ k = "info" \/
      k = "cycle" \/ k = "job" \/ k = "cpu") ->
   BuildLabelMatchers labels = "").
Proof.
  intros kept. split; [|split].
  - rewrite BuildLabelMatchers_join. unfold kept.
    now rewrite matcherStrings_filter.
  - intros k v. unfold kept. rewrite filter_In. simpl.
    rewrite negb_true_iff, <- skipped_iff.
    destruct (skipped k); intuition congruence.
  - intros Hall. rewrite BuildLabelMatchers_join.
    assert (E : matcherStrings labels = []).
    { induction labels as [|[k v] rest IH]; [reflexivity|].
      simpl. assert (S : skipped k = true).
      { apply skipped_iff. apply (Hall k v). now left. }
      rewrite S. apply IH. intros k' v' Hin. apply (Hall k' v'). now right. }
    now rewrite E.
Qed.

Lemma BuildLabelMatchers_excludes_seven_keys_witness :
  BuildLabelMatchers Scenario.onlySkipped = "" /\
  BuildLabelMatchers Scenario.expiry31
  = ("instance=" ++ dquote ++ "host:9100" ++ dquote)%string.
Proof.
  split.
  - apply (BuildLabelMatchers_excludes_seven_keys Scenario.onlySkipped).
    intros k v Hin. apply skipped_iff.
    simpl in Hin.
    repeat (destruct Hin as [Hin|Hin];
            [injection Hin as <- _; reflexivity|]).
    destruct Hin.
  - pose proof (BuildLabelMatchers_excludes_seven_keys Scenario.expiry31)
      as [E _].
    exact E.
Defined.

(** Every [reset_day] entry of a label set becomes a term of the filter. *)
Lemma reset_day_is_kept (labels : Metric) (v : string) :
  In ("reset_day", v) labels ->
  In (matcher ("reset_day", v)) (matcherStrings labels).
Proof.
  intros Hin. rewrite matcherStrings_filter. apply in_map.
  apply filter_In. split; [exact Hin|reflexivity].
Qed.

(** C4, on the code: [reset_day] is not among the skipped keys, so a label
    set that carries it yields a filter with a [reset_day="..."] term. *)
Theorem reset_day_reaches_the_filter :
  skipped "reset_day" = false /\
  BuildLabelMatchers Scenario.withResetDay
  = ("instance=" ++ dquote ++ "host:9100" ++ dquote ++ ","
     ++ "reset_day=" ++ dquote ++ "2024-01-15" ++ dquote)%string /\
  In (matcher ("reset_day", "2024-01-15"))
     (matcherStrings Scenario.withResetDay).
Proof.
  split; [reflexivity|split; [reflexivity|]].
  apply reset_day_is_kept. simpl. tauto.
Qed.

(** ** Durations *)

Lemma toInt_Hours (d : Duration) : toInt (Hours d) = Z.quot d Hour.
Proof. reflexivity. Qed.






(** ** Byte counts *)

Lemma div_eucl_pair (a b : Z) : Z.div_eucl a b = (a / b, a mod b).
Proof. unfold Z.div, Z.modulo. now destruct (Z.div_eucl a b). Qed.

(** Dividing a normal binary64 value by [2^k] only moves its exponent, as
    long as the quotient stays normal. *)
Lemma div_pow2 (s : bool) (m : positive) (e k : Z) :
  digits2_pos m = 53%positive ->
  -1073 <= e - k -> e - k <= 971 ->
  div (S754_finite s m e) (pow2 k) = S754_finite s m (e - k).
Proof.
  intros Hd Hlo Hhi.
  unfold div, pow2, SFdiv, SFdiv_core_binary.
  cbn [Zdigits2]. rewrite Hd.
  change (digits2_pos 4503599627370496) with 53%positive.
  replace (Z.pos 53 + e - (Z.pos 53 + (k - 52))) with (e - k + 52) by lia.
  unfold fexp, emin, prec, emax.
  replace (Z.max (e - k + 52 - 53) (3 - 1024 - 53)) with (e - k - 1) by lia.
  replace (Z.min (e - k - 1) (e - (k - 52))) with (e - k - 1) by lia.
  replace (e - (k - 52) - (e - k - 1)) with 53 by lia.
  change (IntDef.Z.div_eucl ?a ?b) with (Z.div_eucl a b).
  change (IntDef.Z.shiftl ?a ?b) with (Z.shiftl a b).
  rewrite Z.shiftl_mul_pow2 by lia.
  replace (Z.pos m * 2 ^ 53) with (Z.pos m~0 * 4503599627370496) by lia.
  rewrite div_eucl_pair, Z.div_mul, Z.mod_mul by lia.
  change (new_location 4503599627370496 0) with loc_Exact.
  rewrite xorb_false_r.
  unfold binary_round_aux, shr_fexp.
  cbn [Zdigits2 digits2_pos]. rewrite Hd.
  unfold fexp, emin.
  change (Z.pos (Pos.succ 53)) with 54.
  replace (Z.max (54 + (e - k - 1) - 53) (3 - 1024 - 53)) with (e - k) by lia.
  replace (e - k - (e - k - 1)) with 1 by lia.
  cbn [shr shr_record_of_loc iter_pos shr_1 loc_of_shr_record
       round_nearest_even shr_m orb].
  replace (e - k - 1 + 1) with (e - k) by lia.
  cbn [Zdigits2]. rewrite Hd.
  replace (Z.max (Z.pos 53 + (e - k) - 53) (3 - 1024 - 53)) with (e - k)
    by lia.
  rewrite Z.sub_diag.
  cbn [shr shr_m].
  replace (e - k <=? 1024 - 53) with true by (symmetry; apply Z.leb_le; lia).
  reflexivity.
Qed.

(** Comparing the other way round gives the opposite answer. *)
Lemma SFcompare_antisym (x y : float64) :
  SFcompare y x = option_map CompOpp (SFcompare x y).
Proof.
  destruct x as [sx|sx| |sx mx ex], y as [sy|sy| |sy my ey]; simpl;
    try reflexivity;
    try (destruct sx; reflexivity); try (destruct sy; reflexivity);
    try (destruct sx, sy; reflexivity).
  assert (Hm : Pos.compare_cont Eq my mx
               = CompOpp (Pos.compare_cont Eq mx my))
    by exact (eq_sym (Pos.compare_cont_antisym mx my Eq)).
  destruct sx, sy; try reflexivity;
    rewrite (Z.compare_antisym ex ey);
    destruct (ex ?= ey); simpl; try reflexivity;
    rewrite Hm; now rewrite ?CompOpp_involutive.
Qed.

(** A finite value is either at least a positive finite threshold or
    below it. *)
Lemma geb_or_ltb_finite (x : float64) (mT : positive) (eT : Z) :
  isFinite x = true ->
  geb x (S754_finite false mT eT) = negb (ltb x (S754_finite false mT eT)).
Proof.
  intros Hf. unfold geb, ltb, SFleb, SFltb.
  rewrite (SFcompare_antisym x (S754_finite false mT eT)).
  destruct x as [sx|sx| |sx mx ex]; try discriminate; simpl.
  - reflexivity.
  - destruct sx; [reflexivity|].
    destruct (ex ?= eT); try reflexivity.
    destruct (Pos.compare_cont Eq mx mT); reflexivity.
Qed.

(** Below a threshold means below every threshold with the same mantissa
    and a larger exponent. *)
Lemma ltb_geb_higher_finite (x : float64) (mT : positive) (e1 e2 : Z) :
  ltb x (S754_finite false mT e1) = true -> e1 <= e2 ->
  geb x (S754_finite false mT e2) = false.
Proof.
  intros Hlt Hk. unfold geb, SFleb. unfold ltb, SFltb in Hlt.
  rewrite (SFcompare_antisym x (S754_finite false mT e2)).
  destruct x as [sx|sx| |sx mx ex]; simpl in *; try discriminate;
    try reflexivity.
  - now destruct sx.
  - destruct sx; [reflexivity|].
    destruct (Z.compare_spec ex e1) as [E|L|G]; try discriminate.
    + destruct (Z.compare_spec ex e2) as [E'|L'|G'];
        try reflexivity; try lia.
      destruct (Pos.compare_cont Eq mx mT);
        try discriminate; reflexivity.
    + destruct (Z.compare_spec ex e2) as [E'|L'|G'];
        try reflexivity; lia.
Qed.

(** A binary64 value that is at least a positive normal threshold is
    positive and normal. *)
Lemma geb_normal (x : float64) (mT : positive) (eT : Z) :
  isBinary64 x = true -> isFinite x = true ->
  geb x (S754_finite false mT eT) = true -> -1073 <= eT ->
  exists m e, x = S754_finite false m e /\
              digits2_pos m = 53%positive /\ eT <= e /\ e <= 971.
Proof.
  intros Hv Hf Hge Hk. unfold geb, SFleb in Hge.
  destruct x as [sx|sx| |sx mx ex]; simpl in Hge; try discriminate.
  destruct sx; [discriminate|].
  exists mx, ex. split; [reflexivity|].
  unfold isBinary64, valid_binary, bounded, canonical_mantissa in Hv.
  apply andb_true_iff in Hv. destruct Hv as [Hc He].
  apply Z.eqb_eq in Hc. apply Z.leb_le in He.
  unfold fexp, emin, F64.prec, F64.emax in *.
  assert (Hex : eT <= ex).
  { destruct (Z.compare_spec eT ex); try discriminate; lia. }
  repeat split; lia.
Qed.

Lemma TB_pow2 : TB = pow2 40. Proof. vm_compute. reflexivity. Qed.
Lemma GB_pow2 : GB = pow2 30. Proof. vm_compute. reflexivity. Qed.
Lemma MB_pow2 : MB = pow2 20. Proof. vm_compute. reflexivity. Qed.
Lemma KB_pow2 : KB = pow2 10. Proof. vm_compute. reflexivity. Qed.

Lemma ltb_geb_higher (x : float64) (k1 k2 : Z) :
  ltb x (pow2 k1) = true -> k1 <= k2 -> geb x (pow2 k2) = false.
Proof.
  intros Hlt Hk.
  apply (ltb_geb_higher_finite x 4503599627370496 (k1 - 52) (k2 - 52));
    [exact Hlt|lia].
Qed.

Lemma geb_or_ltb (x : float64) (k : Z) :
  isFinite x = true -> geb x (pow2 k) = negb (ltb x (pow2 k)).
Proof. apply geb_or_ltb_finite. Qed.

Lemma digitChar_isDigit (d : Z) :
  0 <= d < 10 -> isDigit (digitChar d) = true.
Proof.
  intros Hd.
  assert (H : d = 0 \/ d = 1 \/ d = 2 \/ d = 3 \/ d = 4 \/ d = 5 \/ d = 6 \/
              d = 7 \/ d = 8 \/ d = 9) by lia.
  repeat (destruct H as [->|H]; [reflexivity|]). now subst.
Qed.

Lemma digitsFuel_allDigits (fuel : nat) :
  forall n acc, 0 <= n -> allDigits acc = true ->
                allDigits (digitsFuel fuel n acc) = true.
Proof.
  induction fuel as [|fuel IH]; intros n acc Hn Hacc; [exact Hacc|].
  assert (Hc : allDigits (String (digitChar (n mod 10)) acc) = true).
  { cbn [allDigits]. rewrite Hacc, digitChar_isDigit; [reflexivity|].
    apply Z.mod_pos_bound. lia. }
  cbn [digitsFuel]. destruct (n <? 10); [exact Hc|].
  apply IH; [|exact Hc]. apply Z.div_pos; lia.
Qed.

Lemma digitsFuel_nonempty (fuel : nat) :
  forall n c acc, digitsFuel fuel n (String c acc) <> "".
Proof.
  induction fuel as [|fuel IH]; intros n c acc; [discriminate|].
  cbn [digitsFuel]. destruct (n <? 10); [discriminate|apply IH].
Qed.

Lemma digits_shape (n : Z) :
  0 <= n -> digits n <> "" /\ allDigits (digits n) = true.
Proof.
  intros Hn. unfold digits. split.
  - cbn [digitsFuel]. destruct (n <? 10);
      [discriminate|apply digitsFuel_nonempty].
  - now apply digitsFuel_allDigits.
Qed.

Lemma roundHalfEven_nonneg (num den : Z) :
  0 <= num -> 0 < den -> 0 <= roundHalfEven num den.
Proof.
  intros Hn Hd. unfold roundHalfEven.
  assert (0 <= num / den) by (apply Z.div_pos; lia).
  destruct (2 * (num mod den) ?= den); [destruct (Z.even _)| |]; lia.
Qed.

Lemma hundredths_twoDecimals (sign : string) (n : Z) :
  sign = "" \/ sign = "-" -> 0 <= n ->
  twoDecimals (sign ++ hundredths n).
Proof.
  intros Hs Hn. unfold twoDecimals, hundredths.
  destruct (digits_shape (n / 100)) as [Hne Hall];
    [apply Z.div_pos; lia|].
  exists sign, (digits (n / 100)),
    (digitChar ((n / 10) mod 10)), (digitChar (n mod 10)).
  repeat split; try assumption;
    apply digitChar_isDigit; apply Z.mod_pos_bound; lia.
Qed.

(** [%.2f] prints every finite value with exactly two decimals. *)
Lemma fmt_2f_twoDecimals (x : float64) :
  isFinite x = true -> twoDecimals (fmt_2f x).
Proof.
  destruct x as [s|s| |s m e]; try discriminate; intros _.
  - exists (if s then "-" else "")%string, "0"%string, "0"%char, "0"%char.
    repeat split; try reflexivity; try discriminate.
    destruct s; [now right|now left].
  - unfold fmt_2f.
    apply hundredths_twoDecimals; [destruct s; [now right|now left]|].
    destruct e as [|p|p].
    + lia.
    + assert (0 < 2 ^ Z.pos p) by (apply Z.pow_pos_nonneg; lia). nia.
    + apply roundHalfEven_nonneg; [lia|].
      apply Z.pow_pos_nonneg; lia.
Qed.

(** A binary64 value that is at least [2^k] is printed, once divided by
    [2^k], with two decimals. *)
Lemma scaled_twoDecimals (x : float64) (k : Z) :
  isBinary64 x = true -> isFinite x = true -> 0 <= k ->
  geb x (pow2 k) = true ->
  twoDecimals (fmt_2f (div x (pow2 k))).
Proof.
  intros Hv Hf Hk Hge.
  destruct (geb_normal x 4503599627370496 (k - 52) Hv Hf Hge)
    as (m & e & -> & Hd & Hlo & Hhi); [lia|].
  rewrite div_pow2 by (try assumption; lia).
  now apply fmt_2f_twoDecimals.
Qed.

(** C7. [FormatBytes] picks its unit by the binary thresholds, the
    highest first: at least 2^40 prints in TiB, else at least 2^30 in
    GiB, else at least 2^20 in MiB, else at least 2^10 in KiB, and below
    1024 the value itself in B, never a smaller unit. Every finite
    binary64 value is printed with exactly two decimals. So 1023 prints
    as "1023.00 B", 1024 as "1.00 KiB" and 1073741824 as "1.00 GiB". *)
Theorem FormatBytes_units (x : float64) :
  isBinary64 x = true -> isFinite x = true ->
  (TB = pow2 40 /\ GB = pow2 30 /\ MB = pow2 20 /\ KB = pow2 10) /\
  (geb x TB = true ->
     FormatBytes x = (fmt_2f (div x TB) ++ " TiB")%string) /\
  (ltb x TB = true -> geb x GB = true ->
     FormatBytes x = (fmt_2f (div x GB) ++ " GiB")%string) /\
  (ltb x GB = true -> geb x MB = true ->
     FormatBytes x = (fmt_2f (div x MB) ++ " MiB")%string) /\
  (ltb x MB = true -> geb x KB = true ->
     FormatBytes x = (fmt_2f (div x KB) ++ " KiB")%string) /\
  (ltb x KB = true -> FormatBytes x = (fmt_2f x ++ " B")%string) /\
  (forall k, geb x (pow2 k) = negb (ltb x (pow2 k))) /\
  (exists number unit,
     FormatBytes x = (number ++ unit)%string /\ twoDecimals number /\
     In unit [" TiB"; " GiB"; " MiB"; " KiB"; " B"]) /\
  FormatBytes (ofZ 1023) = "1023.00 B" /\
  FormatBytes (ofZ 1024) = "1.00 KiB" /\
  FormatBytes (ofZ 1073741824) = "1.00 GiB".
Proof.
  intros Hv Hf.
  split; [repeat split; vm_compute; reflexivity|].
  unfold FormatBytes. rewrite TB_pow2, GB_pow2, MB_pow2, KB_pow2.
  split; [intros ->; reflexivity|].
  split.
  { intros Hlt Hge. now rewrite (ltb_geb_higher x 40 40 Hlt), Hge by lia. }
  split.
  { intros Hlt Hge.
    now rewrite (ltb_geb_higher x 30 40 Hlt), (ltb_geb_higher x 30 30 Hlt),
      Hge by lia. }
  split.
  { intros Hlt Hge.
    now rewrite (ltb_geb_higher x 20 40 Hlt), (ltb_geb_higher x 20 30 Hlt),
      (ltb_geb_higher x 20 20 Hlt), Hge by lia. }
  split.
  { intros Hlt.
    now rewrite (ltb_geb_higher x 10 40 Hlt), (ltb_geb_higher x 10 30 Hlt),
      (ltb_geb_higher x 10 20 Hlt), (ltb_geb_higher x 10 10 Hlt) by lia. }
  split; [intros k; now apply geb_or_ltb|].
  split; [|repeat split; vm_compute; reflexivity].
  destruct (geb x (pow2 40)) eqn:H40.
  { exists (fmt_2f (div x (pow2 40))), " TiB"%string.
    repeat split; [apply scaled_twoDecimals; (assumption || lia)|].
    simpl; tauto. }
  destruct (geb x (pow2 30)) eqn:H30.
  { exists (fmt_2f (div x (pow2 30))), " GiB"%string.
    repeat split; [apply scaled_twoDecimals; (assumption || lia)|].
    simpl; tauto. }
  destruct (geb x (pow2 20)) eqn:H20.
  { exists (fmt_2f (div x (pow2 20))), " MiB"%string.
    repeat split; [apply scaled_twoDecimals; (assumption || lia)|].
    simpl; tauto. }
  destruct (geb x (pow2 10)) eqn:H10.
  { exists (fmt_2f (div x (pow2 10))), " KiB"%string.
    repeat split; [apply scaled_twoDecimals; (assumption || lia)|].
    simpl; tauto. }
  exists (fmt_2f x), " B"%string.
  repeat split; [now apply fmt_2f_twoDecimals|simpl; tauto].
Qed.

Lemma FormatBytes_units_witness :
  FormatBytes (ofZ 1536) = "1.50 KiB" /\
  FormatBytes (ofZ 5) = "5.00 B".
Proof.
  split.
  - pose proof (FormatBytes_units (ofZ 1536) eq_refl eq_refl)
      as (_ & _ & _ & _ & HK & _).
    rewrite HK; reflexivity.
  - pose proof (FormatBytes_units (ofZ 5) eq_refl eq_refl)
      as (_ & _ & _ & _ & _ & HB & _).
    rewrite HB; reflexivity.
Defined.

(** ** The calendar *)

Lemma allFrom_spec (n : nat) (p : Z -> bool) :
  forall from, allFrom n from p = true ->
               forall z, from <= z < from + Z.of_nat n -> p z = true.
Proof.
  induction n as [|n IH]; intros from H z Hz; [lia|].
  cbn [allFrom] in H. apply andb_true_iff in H. destruct H as [H0 H1].
  destruct (Z.eq_dec z from) as [->|Hne]; [exact H0|].
  apply (IH (from + 1) H1). lia.
Qed.

(** A property of period [p] that holds on [0 .. p-1] holds everywhere. *)
Lemma periodic_everywhere (f : Z -> bool) (p : Z) :
  0 < p -> (forall z, f (z + p) = f z) ->
  (forall z, 0 <= z < p -> f z = true) -> forall z, f z = true.
Proof.
  intros Hp Hper Hbase z.
  assert (Hup : forall k : nat, forall r, f (r + Z.of_nat k * p) = f r).
  { induction k as [|k IH]; intros r.
    - now rewrite Z.add_0_r.
    - replace (r + Z.of_nat (S k) * p) with (r + Z.of_nat k * p + p) by lia.
      now rewrite Hper. }
  assert (Hr : 0 <= z mod p < p) by (apply Z.mod_pos_bound; exact Hp).
  pose proof (Z.div_mod z p ltac:(lia)) as Hz.
  destruct (Z_le_gt_dec 0 (z / p)) as [Hq|Hq].
  - rewrite <- (Hbase (z mod p) Hr).
    rewrite <- (Hup (Z.to_nat (z / p)) (z mod p)).
    f_equal. rewrite Z2Nat.id by exact Hq. lia.
  - rewrite <- (Hbase (z mod p) Hr).
    rewrite <- (Hup (Z.to_nat (- (z / p))) z).
    f_equal. rewrite Z2Nat.id by lia. lia.
Qed.

Lemma civilFromDays_shift (z : Z) :
  civilFromDays (z + cycleDays)
  = let '(y, m, d) := civilFromDays z in (y + 400, m, d).
Proof.
  unfold civilFromDays, cycleDays.
  replace (z + 146097 + 719468) with (z + 719468 + 1 * 146097) by ring.
  rewrite Z.div_add by lia.
  replace (z + 719468 + 1 * 146097 - ((z + 719468) / 146097 + 1) * 146097)
    with (z + 719468 - (z + 719468) / 146097 * 146097) by ring.
  set (doe := z + 719468 - (z + 719468) / 146097 * 146097).
  set (era := (z + 719468) / 146097).
  cbv zeta.
  set (yoe := (doe - doe / 1460 + doe / 36524 - doe / 146096) / 365).
  set (doy := doe - (365 * yoe + yoe / 4 - yoe / 100)).
  set (mp := (5 * doy + 2) / 153).
  destruct (mp <? 10); destruct (_ <=? 2); cbv beta iota;
    (apply f_equal2; [apply f_equal2; [ring|reflexivity]|reflexivity]).
Qed.

Lemma daysFromCivil_shift (year month day : Z) :
  daysFromCivil (year + 400) month day
  = daysFromCivil year month day + cycleDays.
Proof.
  unfold daysFromCivil, cycleDays. cbv zeta.
  assert (H : forall y, let yoe := y + 1 * 400 - (y / 400 + 1) * 400 in
              forall doy,
              (y / 400 + 1) * 146097
              + (yoe * 365 + yoe / 4 - yoe / 100 + doy) - 719468
              = y / 400 * 146097
                + ((y - y / 400 * 400) * 365 + (y - y / 400 * 400) / 4
                   - (y - y / 400 * 400) / 100 + doy) - 719468 + 146097).
  { intros y yoe doy. unfold yoe.
    replace (y + 1 * 400 - (y / 400 + 1) * 400) with (y - y / 400 * 400)
      by ring.
    ring. }
  destruct (month <=? 2).
  - replace (year + 400 - 1) with (year - 1 + 1 * 400) by ring.
    rewrite Z.div_add by lia. apply H.
  - replace (year + 400) with (year + 1 * 400) by ring.
    rewrite Z.div_add by lia. apply H.
Qed.

Lemma normDays_shift (year month day : Z) :
  normDays (year + 400) month day = normDays year month day + cycleDays.
Proof.
  unfold normDays. cbv zeta.
  replace (year + 400 + (month - 1) / 12)
    with (year + (month - 1) / 12 + 400) by ring.
  apply daysFromCivil_shift.
Qed.

(** The day of a date counts on from the first of the month. *)
Lemma normDays_day (year month day : Z) :
  normDays year month day = normDays year month 1 + day - 1.
Proof. unfold normDays, daysFromCivil. cbv zeta. ring. Qed.

(** Months outside 1..12 are brought back into the year they fall in. *)
Lemma normDays_norm (year month day : Z) :
  normDays year month day
  = normDays (year + (month - 1) / 12) ((month - 1) mod 12 + 1) day.
Proof.
  unfold normDays. cbv zeta.
  replace ((month - 1) mod 12 + 1 - 1) with ((month - 1) mod 12) by ring.
  rewrite Z.mod_mod by lia.
  rewrite (Z.div_small ((month - 1) mod 12) 12)
    by (apply Z.mod_pos_bound; lia).
  now rewrite Z.add_0_r.
Qed.

Lemma allFrom_ext (n : nat) (p q : Z -> bool) :
  (forall z, p z = q z) -> forall from, allFrom n from p = allFrom n from q.
Proof.
  intros H. induction n as [|n IH]; intros from; [reflexivity|].
  cbn [allFrom]. now rewrite H, IH.
Qed.

Lemma isLeap_shift (year : Z) : isLeap (year + 400) = isLeap year.
Proof.
  unfold isLeap.
  replace (year + 400) with (year + 100 * 4) at 1 by ring.
  replace (year + 400) with (year + 4 * 100) at 1 by ring.
  replace (year + 400) with (year + 1 * 400) by ring.
  now rewrite !Z.mod_add by lia.
Qed.

Lemma daysIn_shift (month year : Z) :
  daysIn month (year + 400) = daysIn month year.
Proof. unfold daysIn. now rewrite isLeap_shift. Qed.

Lemma daysIn_bounds (month year : Z) : 28 <= daysIn month year <= 31.
Proof.
  unfold daysIn.
  destruct (month =? 2); [destruct (isLeap year); lia|].
  destruct (_ || _); lia.
Qed.

Lemma dayFacts_shift (n : Z) : dayFacts (n + cycleDays) = dayFacts n.
Proof.
  unfold dayFacts. rewrite civilFromDays_shift.
  destruct (civilFromDays n) as [[year month] day]. cbv beta iota.
  rewrite normDays_shift, daysIn_shift.
  apply eq_true_iff_eq.
  rewrite !andb_true_iff, !Z.leb_le, !Z.eqb_eq. lia.
Qed.

Lemma dayFacts_cycle : allFrom (Z.to_nat cycleDays) 0 dayFacts = true.
Proof. vm_cast_no_check (eq_refl true). Qed.

Lemma dayFacts_all (n : Z) : dayFacts n = true.
Proof.
  apply (periodic_everywhere dayFacts cycleDays); [reflexivity| |].
  - apply dayFacts_shift.
  - intros z Hz. apply (allFrom_spec _ _ 0 dayFacts_cycle).
    rewrite Z2Nat.id by (unfold cycleDays; lia). lia.
Qed.

Ltac shift_years year :=
  repeat match goal with
         | |- context [normDays (year + 400 - 1) ?m ?d] =>
             replace (year + 400 - 1) with (year - 1 + 400) by ring
         | |- context [normDays (year + 400 + 1) ?m ?d] =>
             replace (year + 400 + 1) with (year + 1 + 400) by ring
         end;
  rewrite ?normDays_shift.

Lemma monthFacts_shift (year month : Z) :
  monthFacts (year + 400) month = monthFacts year month.
Proof.
  unfold monthFacts. cbv zeta. rewrite daysIn_shift.
  destruct (month - 1 <? 1), (12 <? month + 1); shift_years year;
    apply eq_true_iff_eq;
    rewrite !andb_true_iff, !Z.leb_le, !Z.eqb_eq; lia.
Qed.

Lemma monthFacts_cycle : allFrom 400 0 monthFactsYear = true.
Proof. vm_cast_no_check (eq_refl true). Qed.

Lemma monthFactsYear_all (year : Z) : monthFactsYear year = true.
Proof.
  apply (periodic_everywhere monthFactsYear 400); [reflexivity| |].
  - intros z. unfold monthFactsYear. apply allFrom_ext. intros month.
    apply monthFacts_shift.
  - intros z Hz. apply (allFrom_spec _ _ 0 monthFacts_cycle).
    change (Z.of_nat 400) with 400. lia.
Qed.

Lemma monthFacts_all (year month : Z) :
  1 <= month <= 12 -> monthFacts year month = true.
Proof.
  intros Hm. generalize (monthFactsYear_all year).
  unfold monthFactsYear. intros H.
  apply (allFrom_spec _ _ _ H month).
  change (Z.of_nat 12) with 12. lia.
Qed.

Lemma lastDayOfMonth_shift (year month : Z) :
  lastDayOfMonth (year + 400) month = lastDayOfMonth year month.
Proof.
  unfold lastDayOfMonth. rewrite normDays_shift, civilFromDays_shift.
  now destruct (civilFromDays (normDays year (month + 1) 0)) as [[y m] d].
Qed.

Lemma validityIdleDay_shift (year month len year' month' len' start day : Z) :
  validityIdleDay (year + 400) month len (year' + 400) month' len'
    (start + cycleDays) day
  = validityIdleDay year month len year' month' len' start day.
Proof.
  unfold validityIdleDay.
  replace (start + cycleDays + day - 1) with (start + day - 1 + cycleDays)
    by ring.
  rewrite civilFromDays_shift.
  destruct (civilFromDays (start + day - 1)) as [[y m] d].
  apply eq_true_iff_eq.
  rewrite !orb_true_iff, !andb_true_iff, !Z.leb_le, !Z.eqb_eq. lia.
Qed.

Lemma validityIdleMonth_shift (year month : Z) :
  validityIdleMonth (year + 400) month = validityIdleMonth year month.
Proof.
  unfold validityIdleMonth. cbv zeta.
  apply allFrom_ext. intros day.
  rewrite normDays_shift, lastDayOfMonth_shift.
  destruct (12 <? month + 1).
  - replace (year + 400 + 1) with (year + 1 + 400) by ring.
    rewrite lastDayOfMonth_shift. apply validityIdleDay_shift.
  - rewrite lastDayOfMonth_shift. apply validityIdleDay_shift.
Qed.

Lemma validityIdle_cycle : allFrom 400 0 validityIdleYear = true.
Proof. vm_cast_no_check (eq_refl true). Qed.

Lemma validityIdleYear_all (year : Z) : validityIdleYear year = true.
Proof.
  apply (periodic_everywhere validityIdleYear 400); [reflexivity| |].
  - intros z. unfold validityIdleYear. apply allFrom_ext. intros month.
    apply validityIdleMonth_shift.
  - intros z Hz. apply (allFrom_spec _ _ 0 validityIdle_cycle).
    change (Z.of_nat 400) with 400. lia.
Qed.

Lemma validityIdleMonth_all (year month : Z) :
  1 <= month <= 12 -> validityIdleMonth year month = true.
Proof.
  intros Hm. generalize (validityIdleYear_all year).
  unfold validityIdleYear. intros H.
  apply (allFrom_spec _ _ _ H).
  change (Z.of_nat 12) with 12. lia.
Qed.

Lemma validityIdleDay_all (year month day : Z) :
  1 <= month <= 12 -> 1 <= day <= 31 ->
  validityIdleDay year month (lastDayOfMonth year month)
    (if 12 <? month + 1 then year + 1 else year)
    (if 12 <? month + 1 then 1 else month + 1)
    (lastDayOfMonth (if 12 <? month + 1 then year + 1 else year)
                    (if 12 <? month + 1 then 1 else month + 1))
    (normDays year month 1) day = true.
Proof.
  intros Hm Hd. generalize (validityIdleMonth_all year month Hm).
  unfold validityIdleMonth. intros H.
  apply (allFrom_spec _ _ _ H).
  change (Z.of_nat 31) with 31. lia.
Qed.

Lemma nanosPerDay_pos : 0 < nanosPerDay.
Proof. reflexivity. Qed.

Lemma localDay_Date (year month day : Z) (loc : Location) :
  localDay (Date year month day loc) = normDays year month day.
Proof.
  unfold localDay, Date. cbn [unixNano zone].
  replace (normDays year month day * nanosPerDay - loc * Second
           + loc * Second)
    with (normDays year month day * nanosPerDay) by ring.
  apply Z.div_mul. pose proof nanosPerDay_pos. lia.
Qed.

(** The "date validity" step of [GetInstanceInfo] never changes the date
    it is given: [time.Date] has already carried a day beyond the end of
    the month into the month after, and the month after a short month has
    31 days. *)
Lemma checkValidity_idle (Local : Location) (year month day : Z) :
  1 <= day <= 31 ->
  checkValidity Local (Date year month day Local) day
  = Date year month day Local.
Proof.
  intros Hd.
  pose proof (Z.mod_pos_bound (month - 1) 12 ltac:(lia)) as Hm.
  generalize (validityIdleDay_all (year + (month - 1) / 12)
                ((month - 1) mod 12 + 1) day ltac:(lia) Hd).
  unfold validityIdleDay, lastDayOfMonth.
  rewrite <- normDays_day, <- normDays_norm.
  unfold checkValidity, Year, Month, Day.
  rewrite !localDay_Date.
  destruct (civilFromDays (normDays year month day)) as [[y m] d].
  cbn [fst snd]. intros Hday.
  apply orb_true_iff in Hday.
  destruct Hday as [H|H];
    apply andb_true_iff in H; destruct H as [H Hle];
    apply andb_true_iff in H; destruct H as [Hy' Hm'];
    apply Z.eqb_eq in Hy', Hm'; apply Z.leb_le in Hle; subst y m;
    rewrite (proj2 (Z.ltb_ge _ _) Hle); reflexivity.
Qed.

(** ** The cycle window *)

(** What [dayFacts] and [monthFacts] say of the day numbered [n]. *)
Lemma day_facts (n : Z) :
  forall year month day, civilFromDays n = (year, month, day) ->
  1 <= month <= 12 /\ 1 <= day <= 31 /\
  normDays year month 1 <= n /\
  n < normDays (if 12 <? month + 1 then year + 1 else year)
               (if 12 <? month + 1 then 1 else month + 1) 1 /\
  normDays (if month - 1 <? 1 then year - 1 else year)
           (if month - 1 <? 1 then 12 else month - 1) 1 + 28
  <= normDays year month 1 /\
  normDays year month 1
  <= normDays (if month - 1 <? 1 then year - 1 else year)
              (if month - 1 <? 1 then 12 else month - 1) 1 + 31 /\
  normDays (if 12 <? month + 1 then year + 1 else year)
           (if 12 <? month + 1 then 1 else month + 1) 1
  <= normDays year month 1 + 31.
Proof.
  intros year month day E.
  generalize (dayFacts_all n). unfold dayFacts. rewrite E.
  rewrite !andb_true_iff, !Z.leb_le, Z.eqb_eq.
  intros ((((Hm1 & Hm2) & Hd1) & Hd2) & Hn).
  generalize (monthFacts_all year month (conj Hm1 Hm2)).
  unfold monthFacts. cbv zeta.
  rewrite !andb_true_iff, !Z.leb_le, Z.eqb_eq.
  intros ((Ha & Hb1) & Hb2).
  pose proof (daysIn_bounds month year) as Hlen.
  rewrite normDays_day in Hn.
  repeat split; lia.
Qed.

Lemma Day_range (t : Time) : 1 <= Day t <= 31.
Proof.
  unfold Day.
  destruct (civilFromDays (localDay t)) as [[y m] d] eqn:E.
  destruct (day_facts _ _ _ _ E) as (_ & H & _). exact H.
Qed.

(** An instant lies within its local day. *)
Lemma localDay_bounds (t : Time) :
  localDay t * nanosPerDay - zone t * Second <= unixNano t
  < (localDay t + 1) * nanosPerDay - zone t * Second.
Proof.
  unfold localDay. pose proof nanosPerDay_pos as Hp.
  pose proof (Z.div_mod (unixNano t + zone t * Second) nanosPerDay
                ltac:(lia)) as Hdm.
  pose proof (Z.mod_pos_bound (unixNano t + zone t * Second) nanosPerDay Hp).
  lia.
Qed.

Lemma unixNano_Date (year month day : Z) (loc : Location) :
  unixNano (Date year month day loc)
  = (normDays year month 1 + day - 1) * nanosPerDay - loc * Second.
Proof. unfold Date. cbn [unixNano]. now rewrite <- normDays_day. Qed.

Lemma Truncate_le (t : Time) (d : Duration) :
  unixNano (Truncate t d) <= unixNano t.
Proof.
  unfold Truncate. destruct (Z.leb_spec d 0) as [H|H]; [lia|].
  cbn [unixNano].
  pose proof (Z.mod_pos_bound (unixNano t + unixToInternal * Second) d H).
  lia.
Qed.

(** The window that [GetInstanceInfo] computes, for every anchor day and
    every instant: [nextResetDate] is after [now]; [lastResetDate] is not
    after [now] as soon as the anchor day is at most 28; and
    [lastResetDate] is always within 62 days before and 2 days after
    [now]. *)
Lemma window_bounds (Local : Location) (nowNano day : Z) :
  1 <= day <= 31 ->
  let now := mkTime nowNano Local in
  nowNano < unixNano (nextResetDate Local now day) /\
  (day <= 28 -> unixNano (lastResetDate Local now day) <= nowNano) /\
  nowNano - 62 * nanosPerDay < unixNano (lastResetDate Local now day)
  <= nowNano + 2 * nanosPerDay.
Proof.
  intros Hd now.
  pose proof (localDay_bounds now) as Hnow. cbn [unixNano zone now] in Hnow.
  pose proof nanosPerDay_pos as Hp.
  unfold nextResetDate, lastResetDate, currentMonthResetDate, Year, Month.
  destruct (civilFromDays (localDay now)) as [[y m] d] eqn:E.
  destruct (day_facts _ _ _ _ E) as (Hm & Hdd & Hs & Ha & Hb1 & Hb2 & Ha2).
  cbn [fst snd].
  rewrite !checkValidity_idle by exact Hd.
  unfold After, Before, Equal.
  pose proof (Truncate_le now (24 * Hour)) as Htr.
  rewrite !unixNano_Date in *. cbn [unixNano now] in *.
  set (start := normDays y m 1) in *.
  set (before := normDays (if m - 1 <? 1 then y - 1 else y)
                          (if m - 1 <? 1 then 12 else m - 1) 1) in *.
  set (after := normDays (if 12 <? m + 1 then y + 1 else y)
                         (if 12 <? m + 1 then 1 else m + 1) 1) in *.
  set (n := localDay now) in *.
  change nanosPerDay with 86400000000000 in *.
  change Second with 1000000000 in *.
  split; [|split].
  - destruct (Z.ltb_spec nowNano
                ((start + day - 1) * 86400000000000 - Local * 1000000000));
      rewrite unixNano_Date; [fold start|fold after];
      change nanosPerDay with 86400000000000;
      change Second with 1000000000; lia.
  - intros H28.
    destruct (_ || _) eqn:Hc; rewrite unixNano_Date;
      [fold start|fold before];
      change nanosPerDay with 86400000000000;
      change Second with 1000000000.
    + apply orb_true_iff in Hc. destruct Hc as [Hc|Hc].
      * apply Z.ltb_lt in Hc. lia.
      * apply Z.eqb_eq in Hc. lia.
    + lia.
  - destruct (_ || _) eqn:Hc; rewrite unixNano_Date;
      [fold start|fold before];
      change nanosPerDay with 86400000000000;
      change Second with 1000000000; lia.
Qed.

Lemma wrap64_small (z : Z) : minInt64 <= z <= maxInt64 -> wrap64 z = z.
Proof.
  unfold wrap64, minInt64, maxInt64. intros H.
  rewrite Z.mod_small by lia. lia.
Qed.

(** [int(math.Floor(d.Hours() / 24))] is the floor of [d] over a day. *)
Lemma floor_days (d : Duration) :
  toInt (Floor (Hours d / 24)) = d / (24 * Hour).
Proof.
  unfold toInt, Floor, Hours, inject_Z. cbn [Qnum Qden].
  rewrite Z.quot_1_r.
  unfold Qfloor, Qdiv, Qmult, Qinv. cbn [Qnum Qden].
  now rewrite Z.mul_1_r.
Qed.

(** [calculateDaysDifference] floors first and drops the sign after. *)
Lemma calculateDaysDifference_abs_floor (now last : Time) :
  calculateDaysDifference now last = Z.abs (Sub now last / (24 * Hour)).
Proof.
  unfold calculateDaysDifference. rewrite floor_days.
  destruct (Z.ltb_spec (Sub now last / (24 * Hour)) 0); lia.
Qed.

(** The string handed to the cycle-traffic query, for a last reset within
    62 days before and 2 days after [now]. *)
Lemma cycleDuration_near (now last : Time) :
  unixNano now - 62 * nanosPerDay < unixNano last
  <= unixNano now + 2 * nanosPerDay ->
  cycleDuration now last
  = formatDuration
      (24 * Hour * Z.abs ((unixNano now - unixNano last) / (24 * Hour))).
Proof.
  change nanosPerDay with 86400000000000.
  intros H. unfold cycleDuration.
  rewrite calculateDaysDifference_abs_floor.
  assert (ES : Sub now last = unixNano now - unixNano last).
  { unfold Sub, minDuration, maxDuration, minInt64, maxInt64.
    destruct (Z.ltb_spec (unixNano now - unixNano last) (- 2 ^ 63));
      [lia|].
    destruct (Z.ltb_spec (2 ^ 63 - 1) (unixNano now - unixNano last)); lia. }
  rewrite ES. change (24 * Hour) with 86400000000000.
  set (e := unixNano now - unixNano last) in *.
  assert (Hq : -2 <= e / 86400000000000 <= 62).
  { split.
    - apply Z.div_le_lower_bound; lia.
    - apply Z.lt_succ_r, Z.div_lt_upper_bound; lia. }
  rewrite (wrap64_small (Z.abs (e / 86400000000000) * 24))
    by (unfold minInt64, maxInt64; lia).
  change Hour with 3600000000000.
  rewrite wrap64_small by (unfold minInt64, maxInt64; lia).
  f_equal. lia.
Qed.

(** ** The instance report *)

Lemma QueryPrometheus_notPanic (c : Client) (query : string) (t : Time) :
  notPanic (QueryPrometheus c query t) = true.
Proof. unfold QueryPrometheus, call. now destruct (apiQuery c query t). Qed.

Lemma orReturn_notPanic {A B : Type} (r : Res A) (format : string)
    (k : A -> Res B) :
  notPanic r = true -> (forall a, notPanic (k a) = true) ->
  notPanic (orReturn r format k) = true.
Proof. intros Hr Hk. destruct r; [apply Hk|reflexivity|discriminate]. Qed.

Lemma queryNodeBootTime_notPanic (c : Client) (labels : Metric) (t : Time) :
  notPanic (queryNodeBootTime c labels t) = true.
Proof.
  unfold queryNodeBootTime.
  apply orReturn_notPanic; [apply QueryPrometheus_notPanic|].
  intros [v|s|[|x l]|m]; reflexivity.
Qed.

Lemma QueryNetworkRate_notPanic (c : Client) (labels : Metric) (t : Time) :
  notPanic (QueryNetworkRate c labels t) = true.
Proof.
  unfold QueryNetworkRate.
  repeat (apply orReturn_notPanic; [apply QueryPrometheus_notPanic|intros ?]).
  reflexivity.
Qed.

Lemma FetchResourceMetrics_notPanic (c : Client) (labels : Metric)
    (duration : string) (t : Time) :
  notPanic (FetchResourceMetrics c labels duration t) = true.
Proof.
  unfold FetchResourceMetrics.
  repeat (apply orReturn_notPanic; [apply QueryPrometheus_notPanic|intros ?]).
  reflexivity.
Qed.

(** A call whose error is only logged goes on with the value of the call,
    or with the zero value when the call failed. *)
Lemma orLog_valueOr {A B : Type} (r : Res A) (dflt : A) (k : A -> Res B) :
  notPanic r = true -> orLog r dflt k = k (valueOr r dflt).
Proof. destruct r; [reflexivity|reflexivity|discriminate]. Qed.

(** What a report that was built holds. *)
Lemma instanceReport_inv (c : Client) (Local : Location) (nowNano : Z)
    (labels : Metric) (r : InstanceReport) :
  instanceReport c Local nowNano labels = Ok r ->
  let now := mkTime nowNano Local in
  exists expiryTime day,
    Parse (lookup labels "expiry") = Ok expiryTime /\
    anchorDay expiryTime (lookup labels "reset_day") = Ok day /\
    duration r = cycleDuration now (lastResetDate Local now day) /\
    resetDateStr r = dateStr (nextResetDate Local now day) /\
    queryTrafficForDuration c labels (duration r) now
    = Ok (resetTraffic r) /\
    GetNaturalMonthTraffic c labels now = Ok (naturalMonthTraffic r) /\
    GetYesterdayTraffic c labels now = Ok (yesterdayTraffic r) /\
    GetDailyTraffic c labels now = Ok (naturalDailyTraffic r) /\
    bootTime r = valueOr (queryNodeBootTime c labels now) "" /\
    networkRate r = valueOr (QueryNetworkRate c labels now) (zero, zero) /\
    resources r
    = valueOr (FetchResourceMetrics c labels (duration r) now) zeroResource.
Proof.
  intros H now. revert H. unfold instanceReport. fold now.
  destruct (Parse (lookup labels "expiry")) as [expiryTime|e|m] eqn:EP;
    cbn [orReturn]; try discriminate.
  destruct (anchorDay expiryTime (lookup labels "reset_day"))
    as [day|e|m] eqn:EA; try discriminate.
  cbv zeta.
  destruct (queryTrafficForDuration c labels
              (cycleDuration now (lastResetDate Local now day)) now)
    as [rt|e|m] eqn:ET; cbn [orReturn]; try discriminate.
  rewrite orLog_valueOr by apply queryNodeBootTime_notPanic.
  destruct (GetNaturalMonthTraffic c labels now) as [nm|e|m] eqn:EN;
    cbn [orReturn]; try discriminate.
  destruct (GetYesterdayTraffic c labels now) as [yt|e|m] eqn:EY;
    cbn [orReturn]; try discriminate.
  destruct (GetDailyTraffic c labels now) as [dt|e|m] eqn:ED;
    cbn [orReturn]; try discriminate.
  rewrite orLog_valueOr by apply QueryNetworkRate_notPanic.
  rewrite orLog_valueOr by apply FetchResourceMetrics_notPanic.
  intros [= <-]. exists expiryTime, day. cbn.
  repeat split; try reflexivity; assumption.
Qed.




(** ** Scalar extraction *)

Lemma GetFloatFromPromResult_first (s : Sample) (rest : list Sample) :
  GetFloatFromPromResult (ValVector (s :: rest)) = sValue s.
Proof. reflexivity. Qed.

Lemma GetFloatFromPromResult_no_series (v : Value) :
  (forall s rest, v <> ValVector (s :: rest)) ->
  GetFloatFromPromResult v = zero.
Proof.
  intros H. destruct v as [x|x|[|s rest]|m]; try reflexivity.
  now destruct (H s rest).
Qed.

Lemma QueryRange_no_series (c : Client) (query : string)
    (now start end_ : Time) (step : Duration) (v : Value) :
  apiQueryRange c query start end_ step = Answer v ->
  (forall s rest, v <> ValMatrix (s :: rest)) ->
  QueryRange c query now start end_ step = Ok zero.
Proof.
  intros E H. unfold QueryRange. rewrite E. cbn [call orReturn].
  destruct v as [x|x|l|[|s rest]]; try reflexivity.
  now destruct (H s rest).
Qed.

Lemma QueryRange_last_sample (c : Client) (query : string)
    (now start end_ : Time) (step : Duration) (metric : Metric)
    (values : list SamplePair) (p : SamplePair) (rest : list SampleStream) :
  apiQueryRange c query start end_ step
  = Answer (ValMatrix (mkStream metric (values ++ [p]) :: rest)) ->
  QueryRange c query now start end_ step = Ok (pValue p).
Proof.
  intros E. unfold QueryRange. rewrite E. cbn [call orReturn ssValues].
  now rewrite rev_app_distr.
Qed.

(** C9, on the code: when the first series of a range-query result
    carries no sample, [QueryRange] indexes its empty [Values] at
    [len - 1] and panics, and so do [GetYesterdayTraffic] and
    [GetInstanceInfo]. *)
Theorem QueryRange_panics_on_a_series_without_samples
    (query : string) (now start end_ : Time) (step : Duration) :
  QueryRange Scenario.emptySeries query now start end_ step
  = Panic "index out of range [-1]" /\
  GetYesterdayTraffic Scenario.emptySeries Scenario.expiry10 now
  = Panic "index out of range [-1]" /\
  GetInstanceInfo Scenario.emptySeries UTC (Scenario.at_ 2024 4 15 12 0)
    Scenario.expiry10
  = Panic "index out of range [-1]".
Proof. repeat split; reflexivity. Qed.

(** ** The cycle window of [GetInstanceInfo] *)

(** C1, on the code: with the expiry date 2024-03-31 and no [reset_day],
    at 2024-04-15 the last reset is 2024-03-31, but the candidate of the
    current month is [time.Date(2024, April, 31, ...)], which Go
    normalises to 2024-05-01: it is not clamped to April 30, and the next
    reset is 2024-05-01. *)
Theorem anchor_31_in_april_runs_into_may :
  let now := Scenario.at_ 2024 4 15 0 0 in
  cycleWindow UTC now Scenario.expiry31
  = Ok (Date 2024 3 31 UTC, Date 2024 5 1 UTC) /\
  currentMonthResetDate UTC (mkTime now UTC) 31 = Date 2024 5 1 UTC /\
  Date 2024 5 1 UTC <> Date 2024 4 30 UTC /\
  exists r,
    instanceReport Scenario.noData UTC now Scenario.expiry31 = Ok r /\
    resetDateStr r = "2024-05-01".
Proof.
  split; [vm_compute; reflexivity|].
  split; [vm_compute; reflexivity|].
  split; [vm_compute; discriminate|].
  eexists. split; vm_compute; reflexivity.
Qed.

(** C2, on the code: with the anchor day 31, at noon of 2024-03-01 the
    candidate 2024-03-31 is still to come, the last reset is taken from
    February as [time.Date(2024, February, 31, ...)], which Go normalises
    to 2024-03-02, and the validity step leaves it there: the last reset
    is after [now]. The helper [calculateLastMonthExpiry], which clamps
    before it builds the date, answers 2024-02-29 on the same input. *)
Theorem last_reset_after_now_in_early_march :
  let now := Scenario.at_ 2024 3 1 12 0 in
  cycleWindow UTC now Scenario.expiry31
  = Ok (Date 2024 3 2 UTC, Date 2024 3 31 UTC) /\
  Before (mkTime now UTC) (Date 2024 3 2 UTC) = true /\
  calculateLastMonthExpiry UTC (Date 2024 3 31 UTC) (mkTime now UTC)
  = Date 2024 2 29 UTC.
Proof. repeat split; vm_compute; reflexivity. Qed.



(** The test for midnight is made on the UTC time line: in a zone east of
    UTC a candidate that is exactly [now], at local midnight, is not
    seen as past, and the last reset comes from the month before. *)
Lemma local_midnight_east_of_UTC :
  let Local := 8 * 3600 in
  let nowNano := Scenario.at_ 2024 4 15 0 0 - 8 * Hour in
  let now := mkTime nowNano Local in
  unixNano (currentMonthResetDate Local now 15) = nowNano /\
  lastResetDate Local now 15 = Date 2024 3 15 Local /\
  nextResetDate Local now 15 = Date 2024 5 15 Local.
Proof. repeat split; vm_compute; reflexivity. Qed.

(** C10, as stated, fails: at noon of 2024-03-01 with the anchor day 31
    the last reset is 2024-03-02, twelve hours after [now]; the string
    handed to the query is "1d", and the floor of the absolute difference
    over 24 hours would give "0h". *)
Lemma window_string_is_not_the_floor_of_the_absolute_difference :
  let now := Scenario.at_ 2024 3 1 12 0 in
  exists r last next,
    instanceReport Scenario.noData UTC now Scenario.expiry31 = Ok r /\
    cycleWindow UTC now Scenario.expiry31 = Ok (last, next) /\
    duration r = "1d" /\
    formatDuration
      (24 * Hour * (Z.abs (now - unixNano last) / (24 * Hour))) = "0h" /\
    duration r
    <> formatDuration
         (24 * Hour * (Z.abs (now - unixNano last) / (24 * Hour))).
Proof.
  do 3 eexists.
  split; [vm_compute; reflexivity|].
  split; [vm_compute; reflexivity|].
  split; [vm_compute; reflexivity|].
  split; [vm_compute; reflexivity|vm_compute; discriminate].
Qed.

Lemma anchorDay_range (expiryTime : Time) (resetDayStr : string) (day : Z) :
  anchorDay expiryTime resetDayStr = Ok day -> 1 <= day <= 31.
Proof.
  unfold anchorDay. destruct (resetDayStr =? "")%string.
  - intros [= <-]. apply Day_range.
  - destruct (Parse resetDayStr) as [t|e|m]; cbn [orReturn];
      try discriminate.
    intros [= <-]. apply Day_range.
Qed.

(** C10, amended. The range window of the cycle-traffic query is
    [formatDuration] of 24 hours times the absolute value of the floor of
    [(now - lastResetDate) / 24 hours]: the floor is taken first, the
    sign dropped after. Whenever [now] is less than 24 hours after the
    last reset the window is "0h". *)
Theorem cycle_window_string_floors_then_drops_the_sign (c : Client)
    (Local : Location) (nowNano : Z) (labels : Metric)
    (r : InstanceReport) :
  instanceReport c Local nowNano labels = Ok r ->
  exists last next,
    cycleWindow Local nowNano labels = Ok (last, next) /\
    queryTrafficForDuration c labels (duration r) (mkTime nowNano Local)
    = Ok (resetTraffic r) /\
    duration r
    = formatDuration
        (24 * Hour * Z.abs ((nowNano - unixNano last) / (24 * Hour))) /\
    (0 <= nowNano - unixNano last < 24 * Hour -> duration r = "0h").
Proof.
  intros Hr.
  destruct (instanceReport_inv _ _ _ _ _ Hr)
    as (expiryTime & day & EP & EA & ED & _ & ET & _).
  pose proof (anchorDay_range _ _ _ EA) as Hd.
  destruct (window_bounds Local nowNano day Hd) as (_ & _ & Hb).
  exists (lastResetDate Local (mkTime nowNano Local) day),
         (nextResetDate Local (mkTime nowNano Local) day).
  assert (E : duration r
              = formatDuration
                  (24 * Hour
                   * Z.abs ((nowNano
                             - unixNano (lastResetDate Local
                                           (mkTime nowNano Local) day))
                            / (24 * Hour)))).
  { rewrite ED. now apply cycleDuration_near. }
  split; [|split; [exact ET|split; [exact E|]]].
  - unfold cycleWindow. rewrite EP. cbn [orReturn]. now rewrite EA.
  - intros Hlt. rewrite E.
    rewrite (Z.div_small _ (24 * Hour)) by exact Hlt. reflexivity.
Qed.

Lemma cycle_window_string_floors_then_drops_the_sign_witness :
  exists r last next,
    instanceReport Scenario.noData UTC (Scenario.at_ 2024 4 15 12 0)
      Scenario.expiry10 = Ok r /\
    cycleWindow UTC (Scenario.at_ 2024 4 15 12 0) Scenario.expiry10
    = Ok (last, next) /\
    duration r = "5d" /\ last = Date 2024 4 10 UTC.
Proof.
  destruct (instanceReport Scenario.noData UTC (Scenario.at_ 2024 4 15 12 0)
              Scenario.expiry10) as [r|e|m] eqn:E;
    vm_compute in E; [|discriminate|discriminate].
  injection E as <-.
  destruct (cycle_window_string_floors_then_drops_the_sign Scenario.noData
              UTC (Scenario.at_ 2024 4 15 12 0) Scenario.expiry10 _ eq_refl)
    as (last & next & EW & _ & ED & _).
  vm_compute in EW. injection EW as <- <-.
  do 3 eexists. repeat split; reflexivity.
Defined.

(** ** Dates read back *)

(** The date of the day number of a valid date is that date. *)
Lemma civilFromDays_normDays (year month day : Z) :
  1 <= month <= 12 -> 1 <= day <= daysIn month year ->
  civilFromDays (normDays year month day) = (year, month, day).
Proof.
  intros Hm Hd.
  pose proof (daysIn_bounds month year) as Hlen.
  generalize (monthFacts_all year month Hm).
  unfold monthFacts. cbv zeta.
  rewrite !andb_true_iff, !Z.leb_le, Z.eqb_eq.
  intros ((Ha & _) & _).
  generalize (validityIdleDay_all year month day Hm ltac:(lia)).
  unfold validityIdleDay. rewrite <- normDays_day.
  generalize (dayFacts_all (normDays year month day)). unfold dayFacts.
  destruct (civilFromDays (normDays year month day)) as [[y m] d].
  rewrite !andb_true_iff, !Z.leb_le, Z.eqb_eq.
  intros ((((Hm1 & Hm2) & Hd1) & Hd2) & Hn).
  rewrite orb_true_iff, !andb_true_iff, !Z.eqb_eq, !Z.leb_le.
  intros [((Hy & Hm') & _) | ((Hy & Hm') & _)]; subst y m.
  - rewrite (normDays_day year month d), (normDays_day year month day) in Hn.
    repeat f_equal. lia.
  - exfalso.
    rewrite (normDays_day _ _ d), (normDays_day year month day) in Hn. lia.
Qed.

(** The calendar fields of [time.Date] called with a valid date. *)
Lemma Date_fields (year month day : Z) (loc : Location) :
  1 <= month <= 12 -> 1 <= day <= daysIn month year ->
  Year (Date year month day loc) = year /\
  Month (Date year month day loc) = month /\
  Day (Date year month day loc) = day.
Proof.
  intros Hm Hd. unfold Year, Month, Day.
  rewrite localDay_Date, civilFromDays_normDays by assumption.
  repeat split.
Qed.

(** Day 0 of the month after is the last day of the month. *)
Lemma normDays_last (year month : Z) :
  1 <= month <= 12 ->
  normDays year (month + 1) 0 = normDays year month (daysIn month year).
Proof.
  intros Hm.
  generalize (monthFacts_all year month Hm).
  unfold monthFacts. cbv zeta.
  rewrite !andb_true_iff, !Z.leb_le, Z.eqb_eq.
  intros ((Ha & _) & _).
  rewrite (normDays_day year (month + 1) 0),
    (normDays_day year month (daysIn month year)).
  destruct (Z.ltb_spec 12 (month + 1)) as [H|H].
  - assert (month = 12) by lia. subst month.
    rewrite (normDays_norm year (12 + 1) 1).
    change ((12 + 1 - 1) / 12) with 1.
    change ((12 + 1 - 1) mod 12 + 1) with 1. lia.
  - lia.
Qed.

(** [time.Date(year, month+1, 0, ...).Day()] is the length of [month]. *)
Lemma Day_last (year month : Z) (loc : Location) :
  1 <= month <= 12 ->
  Day (Date year (month + 1) 0 loc) = daysIn month year.
Proof.
  intros Hm. unfold Day.
  rewrite localDay_Date, normDays_last by exact Hm.
  pose proof (daysIn_bounds month year).
  rewrite civilFromDays_normDays by lia. reflexivity.
Qed.

(** ** The cycle window for every instant *)

(** Local midnight of a day is a multiple of 24 hours on the UTC time line
    exactly when the offset of the zone is a multiple of 24 hours. *)
Lemma Truncate_local_midnight (Local : Location) (k : Z) :
  let t := mkTime (k * nanosPerDay - Local * Second) Local in
  (Local mod 86400 = 0 -> unixNano (Truncate t (24 * Hour)) = unixNano t) /\
  (Local mod 86400 <> 0 -> unixNano (Truncate t (24 * Hour)) <> unixNano t).
Proof.
  intros t. unfold Truncate, t. cbn [unixNano zone].
  change (24 * Hour <=? 0) with false. cbv iota. cbn [unixNano].
  change unixToInternal with 62135596800.
  change nanosPerDay with 86400000000000.
  change (24 * Hour) with 86400000000000.
  change Second with 1000000000.
  pose proof (Z.div_mod Local 86400 ltac:(lia)) as HL.
  pose proof (Z.mod_pos_bound Local 86400 ltac:(lia)) as HLb.
  set (q := Local / 86400) in *. set (r := Local mod 86400) in *.
  replace (k * 86400000000000 - Local * 1000000000
           + 62135596800 * 1000000000)
    with (- r * 1000000000 + (k - q + 719162) * 86400000000000) by lia.
  rewrite Z.mod_add by lia.
  split; intros Hr.
  - rewrite Hr. change (- 0 * 1000000000) with 0.
    rewrite Z.mod_0_l by lia. lia.
  - intros H.
    assert (H0 : (- r * 1000000000) mod 86400000000000 = 0) by lia.
    apply Z.mod_divide in H0; [|lia]. destruct H0 as [z Hz]. lia.
Qed.

(** The next reset date is at most 62 days after [now]. *)
Lemma nextResetDate_near (Local : Location) (nowNano day : Z) :
  1 <= day <= 31 ->
  unixNano (nextResetDate Local (mkTime nowNano Local) day)
  <= nowNano + 62 * nanosPerDay.
Proof.
  intros Hd. set (now := mkTime nowNano Local).
  pose proof (localDay_bounds now) as Hnow. cbn [unixNano zone now] in Hnow.
  unfold nextResetDate, currentMonthResetDate, Year, Month.
  destruct (civilFromDays (localDay now)) as [[y m] d] eqn:E.
  destruct (day_facts _ _ _ _ E) as (Hm & Hdd & Hs & Ha & Hb1 & Hb2 & Ha2).
  cbn [fst snd].
  rewrite !checkValidity_idle by exact Hd.
  destruct (After _ _); rewrite unixNano_Date;
    change nanosPerDay with 86400000000000 in *;
    change Second with 1000000000 in *; lia.
Qed.

(** Every anchor day and every instant: the next reset is after [now] and
    at most 62 days away; the last reset is less than 62 days before
    [now] and at most 2 days after it; with an anchor day of at most 28
    the last reset is not after [now]. *)
Theorem reset_window_encloses_now (Local : Location) (nowNano day : Z) :
  1 <= day <= 31 ->
  let now := mkTime nowNano Local in
  let last := lastResetDate Local now day in
  let next := nextResetDate Local now day in
  nowNano < unixNano next <= nowNano + 62 * nanosPerDay /\
  nowNano - 62 * nanosPerDay < unixNano last <= nowNano + 2 * nanosPerDay /\
  (day <= 28 -> unixNano last <= nowNano).
Proof.
  intros Hd now last next.
  destruct (window_bounds Local nowNano day Hd) as (Hn & Hl & Hb).
  pose proof (nextResetDate_near Local nowNano day Hd) as Hu.
  repeat split; try apply Hb; try exact Hn; try exact Hu. exact Hl.
Qed.

Lemma reset_window_encloses_now_witness :
  let now := mkTime (Scenario.at_ 2024 4 15 12 0) UTC in
  unixNano (lastResetDate UTC now 10) <= unixNano now
  < unixNano (nextResetDate UTC now 10).
Proof.
  destruct (reset_window_encloses_now UTC (Scenario.at_ 2024 4 15 12 0) 10)
    as ((Hn & _) & _ & Hl); [lia|].
  split; [apply Hl; lia|exact Hn].
Defined.

(** The month after the month before [month] is [month]. *)
Lemma next_of_previous (year month day : Z) (loc : Location) :
  1 <= month <= 12 ->
  let py := if month - 1 <? 1 then year - 1 else year in
  let pm := if month - 1 <? 1 then 12 else month - 1 in
  Date (if 12 <? pm + 1 then py + 1 else py)
       (if 12 <? pm + 1 then 1 else pm + 1) day loc
  = Date year month day loc /\ 1 <= pm <= 12.
Proof.
  intros Hm py pm. unfold py, pm.
  destruct (Z.ltb_spec (month - 1) 1) as [H|H].
  - change (12 <? 12 + 1) with true. cbv iota.
    replace (year - 1 + 1) with year by ring.
    replace month with 1 by lia. split; [reflexivity|lia].
  - destruct (Z.ltb_spec 12 (month - 1 + 1)) as [H'|H']; [lia|].
    replace (month - 1 + 1) with month by ring. split; [reflexivity|lia].
Qed.

(** With an anchor day of 1 to 28 the window is one calendar month: the
    last reset is not after [now], the next reset is after [now], both
    fall on the anchor day, and the next reset is the anchor day of the
    month after the last reset. The one instant left out is local midnight
    of the anchor day in a zone whose offset is not a multiple of 24
    hours. *)
Theorem window_is_one_month_for_anchor_up_to_28 (Local : Location)
    (nowNano day : Z) :
  1 <= day <= 28 ->
  let now := mkTime nowNano Local in
  nowNano <> unixNano (currentMonthResetDate Local now day)
  \/ Local mod 86400 = 0 ->
  let last := lastResetDate Local now day in
  let next := nextResetDate Local now day in
  unixNano last <= nowNano < unixNano next /\
  Day last = day /\ Day next = day /\
  next = Date (if 12 <? Month last + 1 then Year last + 1 else Year last)
              (if 12 <? Month last + 1 then 1 else Month last + 1)
              day Local.
Proof.
  intros Hd now Hne last next.
  destruct (window_bounds Local nowNano day ltac:(lia)) as (Hn & Hl & _).
  fold now in Hn, Hl. specialize (Hl ltac:(lia)).
  split; [split; [exact Hl|exact Hn]|].
  clear Hn Hl. revert Hne. unfold last, next. clear last next.
  pose proof (Truncate_le now (24 * Hour)) as Htr.
  destruct (civilFromDays (localDay now)) as [[y m] d] eqn:E.
  destruct (day_facts _ _ _ _ E) as (Hm & _).
  assert (EY : Year now = y) by (unfold Year; now rewrite E).
  assert (EM : Month now = m) by (unfold Month; now rewrite E).
  unfold lastResetDate, nextResetDate, currentMonthResetDate.
  rewrite !EY, !EM.
  rewrite !checkValidity_idle by lia.
  pose proof (daysIn_bounds m y) as Hlen.
  destruct (Date_fields y m day Local Hm ltac:(lia)) as (FY & FM & FD).
  destruct (next_of_previous y m day Local Hm) as [Enp Hpm].
  cbv zeta in Enp, Hpm.
  set (py := if m - 1 <? 1 then y - 1 else y) in *.
  set (pm := if m - 1 <? 1 then 12 else m - 1) in *.
  pose proof (daysIn_bounds pm py) as Hlenp.
  destruct (Date_fields py pm day Local Hpm ltac:(lia)) as (PY & PM & PD).
  assert (Hnm : 1 <= (if 12 <? m + 1 then 1 else m + 1) <= 12)
    by (destruct (Z.ltb_spec 12 (m + 1)); lia).
  pose proof (daysIn_bounds (if 12 <? m + 1 then 1 else m + 1)
                (if 12 <? m + 1 then y + 1 else y)) as Hlenn.
  destruct (Date_fields (if 12 <? m + 1 then y + 1 else y)
              (if 12 <? m + 1 then 1 else m + 1) day Local Hnm ltac:(lia))
    as (NY & NM & ND).
  unfold Before, After, Equal. cbn [unixNano now] in *.
  intros Hne.
  destruct (Z.compare_spec (unixNano (Date y m day Local)) nowNano)
    as [Heq|Hlt|Hgt].
  - (* exactly at the candidate *)
    destruct Hne as [Hne|Hz]; [congruence|].
    rewrite unixNano_Date, <- normDays_day in Heq.
    destruct (Truncate_local_midnight Local (normDays y m day)) as [HT _].
    cbv zeta in HT. rewrite Heq in HT. specialize (HT Hz).
    cbn [unixNano] in HT. fold now in HT. rewrite HT.
    rewrite unixNano_Date, <- normDays_day, Heq.
    rewrite Z.eqb_refl, orb_true_r, Z.ltb_irrefl.
    rewrite FY, FM. repeat split; assumption.
  - rewrite (proj2 (Z.ltb_lt _ _) Hlt). cbn [orb].
    rewrite (proj2 (Z.ltb_ge _ _) (Z.lt_le_incl _ _ Hlt)).
    rewrite FY, FM. repeat split; assumption.
  - rewrite (proj2 (Z.ltb_ge _ _) (Z.lt_le_incl _ _ Hgt)).
    assert (Hn : unixNano (Date y m day Local)
                 <> unixNano (Truncate now (24 * Hour))) by lia.
    rewrite (proj2 (Z.eqb_neq _ _) Hn). cbn [orb].
    rewrite (proj2 (Z.ltb_lt _ _) Hgt).
    rewrite PY, PM, Enp. repeat split; assumption.
Qed.

Lemma window_is_one_month_for_anchor_up_to_28_witness :
  let now := mkTime (Scenario.at_ 2024 12 20 8 30) (8 * 3600) in
  lastResetDate (8 * 3600) now 28 = Date 2024 11 28 (8 * 3600) /\
  nextResetDate (8 * 3600) now 28 = Date 2024 12 28 (8 * 3600) /\
  Day (nextResetDate (8 * 3600) now 28) = 28.
Proof.
  destruct (window_is_one_month_for_anchor_up_to_28 (8 * 3600)
              (Scenario.at_ 2024 12 20 8 30) 28)
    as (_ & _ & HD & _); [lia|left; vm_compute; discriminate|].
  split; [reflexivity|split; [reflexivity|exact HD]].
Defined.

(** At local midnight of the anchor day, in a zone whose offset is not a
    multiple of 24 hours, the candidate of the running month is neither
    past nor future: the last reset is taken from the month before and the
    next reset from the month after, a window of two months. *)
Theorem window_spans_two_months_at_local_midnight (Local : Location)
    (nowNano day : Z) :
  1 <= day <= 31 ->
  let now := mkTime nowNano Local in
  nowNano = unixNano (currentMonthResetDate Local now day) ->
  Local mod 86400 <> 0 ->
  lastResetDate Local now day
  = Date (if Month now - 1 <? 1 then Year now - 1 else Year now)
         (if Month now - 1 <? 1 then 12 else Month now - 1) day Local /\
  nextResetDate Local now day
  = Date (if 12 <? Month now + 1 then Year now + 1 else Year now)
         (if 12 <? Month now + 1 then 1 else Month now + 1) day Local.
Proof.
  intros Hd now Heq Hz.
  unfold lastResetDate, nextResetDate.
  rewrite !checkValidity_idle by exact Hd.
  unfold Before, After, Equal. rewrite <- Heq. cbn [unixNano now].
  rewrite Z.ltb_irrefl. cbn [orb].
  unfold currentMonthResetDate in Heq.
  rewrite unixNano_Date, <- normDays_day in Heq.
  destruct (Truncate_local_midnight Local
              (normDays (Year now) (Month now) day)) as [_ HT].
  cbv zeta in HT. rewrite <- Heq in HT. specialize (HT Hz).
  cbn [unixNano] in HT. fold now in HT.
  rewrite (proj2 (Z.eqb_neq _ _) (not_eq_sym HT)).
  split; reflexivity.
Qed.

Lemma window_spans_two_months_at_local_midnight_witness :
  let Local := 8 * 3600 in
  let now := mkTime (Scenario.at_ 2024 4 15 0 0 - 8 * Hour) Local in
  lastResetDate Local now 15 = Date 2024 3 15 Local /\
  nextResetDate Local now 15 = Date 2024 5 15 Local.
Proof.
  exact (window_spans_two_months_at_local_midnight (8 * 3600)
           (Scenario.at_ 2024 4 15 0 0 - 8 * Hour) 15
           ltac:(lia) eq_refl ltac:(vm_compute; discriminate)).
Defined.

(** The "date validity" step after both month shifts of [GetInstanceInfo]
    never fires: for every anchor day the last and the next reset are what
    [time.Date] returns for the anchor day in the month before and in the
    month after, overflow into the following month included. *)
Theorem validity_step_never_clamps (Local : Location) (nowNano day : Z) :
  1 <= day <= 31 ->
  let now := mkTime nowNano Local in
  let current := currentMonthResetDate Local now day in
  (forall year month,
     checkValidity Local (Date year month day Local) day
     = Date year month day Local) /\
  lastResetDate Local now day
  = (if Before current now || Equal current (Truncate now (24 * Hour))
     then current
     else Date (if Month now - 1 <? 1 then Year now - 1 else Year now)
               (if Month now - 1 <? 1 then 12 else Month now - 1)
               day Local) /\
  nextResetDate Local now day
  = (if After current now
     then current
     else Date (if 12 <? Month now + 1 then Year now + 1 else Year now)
               (if 12 <? Month now + 1 then 1 else Month now + 1)
               day Local).
Proof.
  intros Hd now current. split; [|split].
  - intros year month. now apply checkValidity_idle.
  - unfold lastResetDate. fold current.
    now rewrite checkValidity_idle by exact Hd.
  - unfold nextResetDate. fold current.
    now rewrite checkValidity_idle by exact Hd.
Qed.

Lemma validity_step_never_clamps_witness :
  checkValidity UTC (Date 2024 4 31 UTC) 31 = Date 2024 5 1 UTC.
Proof.
  destruct (validity_step_never_clamps UTC 0 31) as (H & _); [lia|].
  rewrite H. reflexivity.
Defined.

(** ** The anchor day read from the labels *)

(** What [dayFacts] says of the day numbered [n]. *)
Lemma day_in_month (n year month day : Z) :
  civilFromDays n = (year, month, day) ->
  1 <= month <= 12 /\ 1 <= day <= daysIn month year /\
  normDays year month day = n.
Proof.
  intros E. generalize (dayFacts_all n). unfold dayFacts. rewrite E.
  rewrite !andb_true_iff, !Z.leb_le, Z.eqb_eq. lia.
Qed.

(** A date that [time.Parse] accepts has the day that its last two digits
    spell. *)
Lemma Parse_day (y1 y2 y3 y4 dash1 m1 m2 dash2 d1 d2 : ascii) (g h : Z)
    (t : Time) :
  Parse (String y1 (String y2 (String y3 (String y4 (String dash1
          (String m1 (String m2 (String dash2
            (String d1 (String d2 "")))))))))) = Ok t ->
  digitVal d1 = Some g -> digitVal d2 = Some h ->
  Day t = g * 10 + h.
Proof.
  unfold Parse. intros H Hg Hh. revert H. rewrite Hg, Hh.
  destruct (digitVal y1) as [a|]; [|discriminate].
  destruct (digitVal y2) as [b|]; [|discriminate].
  destruct (digitVal y3) as [c|]; [|discriminate].
  destruct (digitVal y4) as [d|]; [|discriminate].
  destruct (digitVal m1) as [e|]; [|discriminate].
  destruct (digitVal m2) as [f|]; [|discriminate].
  cbv zeta.
  destruct (negb _); [discriminate|].
  destruct ((e * 10 + f <? 1) || (12 <? e * 10 + f)) eqn:Em;
    [discriminate|].
  destruct ((g * 10 + h <? 1) || (daysIn _ _ <? g * 10 + h)) eqn:Ed;
    [discriminate|].
  intros [= <-].
  apply orb_false_iff in Em, Ed.
  destruct Em as [Em1 Em2], Ed as [Ed1 Ed2].
  apply Z.ltb_ge in Em1, Em2, Ed1, Ed2.
  apply Date_fields; lia.
Qed.

(** With a [reset_day] label the window is anchored on the day that the
    last two digits of the label spell: the year and the month of the
    label, and the expiry date, play no part in it. *)
Theorem reset_day_label_anchors_on_its_day_digits (Local : Location)
    (nowNano : Z) (labels : Metric) (last next : Time)
    (y1 y2 y3 y4 dash1 m1 m2 dash2 d1 d2 : ascii) (g h : Z) :
  lookup labels "reset_day"
  = String y1 (String y2 (String y3 (String y4 (String dash1
      (String m1 (String m2 (String dash2
        (String d1 (String d2 ""))))))))) ->
  digitVal d1 = Some g -> digitVal d2 = Some h ->
  cycleWindow Local nowNano labels = Ok (last, next) ->
  let now := mkTime nowNano Local in
  last = lastResetDate Local now (g * 10 + h) /\
  next = nextResetDate Local now (g * 10 + h).
Proof.
  intros HL Hg Hh. unfold cycleWindow, anchorDay. rewrite HL.
  destruct (Parse (lookup labels "expiry")) as [expiryTime|e|m];
    cbn [orReturn]; try discriminate.
  change (String y1 _ =? "")%string with false. cbv iota.
  destruct (Parse _) as [t|e|m] eqn:EP; cbn [orReturn]; try discriminate.
  rewrite (Parse_day _ _ _ _ _ _ _ _ _ _ g h t EP Hg Hh).
  intros [= <- <-]. split; reflexivity.
Qed.

Lemma reset_day_label_anchors_on_its_day_digits_witness :
  cycleWindow UTC (Scenario.at_ 2024 4 20 12 0) Scenario.withResetDay
  = Ok (lastResetDate UTC (mkTime (Scenario.at_ 2024 4 20 12 0) UTC) 15,
        nextResetDate UTC (mkTime (Scenario.at_ 2024 4 20 12 0) UTC) 15).
Proof.
  destruct (cycleWindow UTC (Scenario.at_ 2024 4 20 12 0)
              Scenario.withResetDay) as [[last next]|e|m] eqn:E;
    [|vm_compute in E; discriminate|vm_compute in E; discriminate].
  destruct (reset_day_label_anchors_on_its_day_digits UTC
              (Scenario.at_ 2024 4 20 12 0) Scenario.withResetDay last next
              "2" "0" "2" "4" "-" "0" "1" "-" "1" "5" 1 5
              eq_refl eq_refl eq_refl E) as [-> ->].
  reflexivity.
Defined.

(** ** The range of the cycle query *)

Lemma formatDuration_whole_days (N : Z) :
  0 <= N ->
  formatDuration (24 * Hour * N)
  = if N =? 0 then "0h" else fmt_d N ++ "d".
Proof.
  intros HN. destruct (Z.eqb_spec N 0) as [->|Hne]; [reflexivity|].
  unfold formatDuration. rewrite toInt_Hours. cbv zeta.
  replace (24 * Hour * N) with (24 * N * Hour) by ring.
  rewrite Z.quot_mul by discriminate.
  destruct (Z.leb_spec 24 (24 * N)) as [_|H]; [|lia].
  replace (24 * N) with (N * 24) by ring.
  now rewrite Z.quot_mul by discriminate.
Qed.

(** The range of the cycle-traffic query is a whole number of days,
    printed as ["<N>d"], or ["0h"]: hours, minutes and seconds never
    appear in it, and ["0h"] is what the query is given during the first
    24 hours after a reset. *)
Theorem cycle_range_is_whole_days_or_0h (c : Client) (Local : Location)
    (nowNano : Z) (labels : Metric) (r : InstanceReport) :
  instanceReport c Local nowNano labels = Ok r ->
  exists last next N,
    cycleWindow Local nowNano labels = Ok (last, next) /\
    N = Z.abs ((nowNano - unixNano last) / (24 * Hour)) /\
    0 <= N <= 61 /\
    duration r = (if N =? 0 then "0h" else fmt_d N ++ "d").
Proof.
  intros Hr.
  destruct (instanceReport_inv _ _ _ _ _ Hr)
    as (expiryTime & day & EP & EA & ED & _).
  pose proof (anchorDay_range _ _ _ EA) as Hd.
  destruct (window_bounds Local nowNano day Hd) as (_ & _ & Hb).
  exists (lastResetDate Local (mkTime nowNano Local) day),
         (nextResetDate Local (mkTime nowNano Local) day),
         (Z.abs ((nowNano
                  - unixNano (lastResetDate Local (mkTime nowNano Local) day))
                 / (24 * Hour))).
  split; [|split; [reflexivity|]].
  - unfold cycleWindow. rewrite EP. cbn [orReturn]. now rewrite EA.
  - rewrite ED, cycleDuration_near by exact Hb. cbn [unixNano].
    set (e := nowNano
              - unixNano (lastResetDate Local (mkTime nowNano Local) day))
      in *.
    assert (Hq : -2 <= e / (24 * Hour) <= 61).
    { change nanosPerDay with 86400000000000 in Hb.
      change (24 * Hour) with 86400000000000. split.
      - apply Z.div_le_lower_bound; lia.
      - apply Z.lt_succ_r, Z.div_lt_upper_bound; lia. }
    split; [lia|]. apply formatDuration_whole_days. lia.
Qed.

Lemma cycle_range_is_whole_days_or_0h_witness :
  exists r,
    instanceReport Scenario.noData UTC (Scenario.at_ 2024 4 10 12 0)
      Scenario.expiry10 = Ok r /\
    duration r = "0h".
Proof.
  destruct (instanceReport Scenario.noData UTC (Scenario.at_ 2024 4 10 12 0)
              Scenario.expiry10) as [r|e|m] eqn:E;
    vm_compute in E; [|discriminate|discriminate].
  injection E as <-.
  destruct (cycle_range_is_whole_days_or_0h Scenario.noData UTC
              (Scenario.at_ 2024 4 10 12 0) Scenario.expiry10 _ eq_refl)
    as (last & next & N & EW & -> & _ & ED).
  vm_compute in EW. injection EW as <- <-.
  eexists. split; reflexivity.
Defined.

(** ** [calculateLastMonthExpiry] *)

Lemma previous_then_next (year month : Z) :
  1 <= month <= 12 ->
  let py := if month - 1 <? 1 then year - 1 else year in
  let pm := if month - 1 <? 1 then 12 else month - 1 in
  (if 12 <? pm + 1 then py + 1 else py) = year /\
  (if 12 <? pm + 1 then 1 else pm + 1) = month /\ 1 <= pm <= 12.
Proof.
  intros Hm py pm. unfold py, pm.
  destruct (Z.ltb_spec (month - 1) 1) as [H|H].
  - change (12 <? 12 + 1) with true. cbv iota. lia.
  - destruct (Z.ltb_spec 12 (month - 1 + 1)) as [H'|H']; lia.
Qed.

(** [calculateLastMonthExpiry] returns the expiry day of the running
    month when that day has been reached, and of the month before
    otherwise, cut down to the last day of a month that is too short; the
    result is never after [now]. *)
Theorem calculateLastMonthExpiry_clamps_and_precedes_now (Local : Location)
    (expiryTime : Time) (nowNano : Z) :
  let now := mkTime nowNano Local in
  let r := calculateLastMonthExpiry Local expiryTime now in
  unixNano r <= nowNano /\
  Day r = Z.min (Day expiryTime) (daysIn (Month r) (Year r)) /\
  Year r = (if Day expiryTime <=? Day now then Year now
            else if Month now - 1 <? 1 then Year now - 1 else Year now) /\
  Month r = (if Day expiryTime <=? Day now then Month now
             else if Month now - 1 <? 1 then 12 else Month now - 1).
Proof.
  intros now r. unfold r. clear r.
  pose proof (Day_range expiryTime) as Hx.
  pose proof (localDay_bounds now) as Hnow. cbn [unixNano zone now] in Hnow.
  destruct (civilFromDays (localDay now)) as [[y m] d] eqn:E.
  destruct (day_in_month _ _ _ _ E) as (Hm & Hd & Hn).
  assert (EY : Year now = y) by (unfold Year; now rewrite E).
  assert (EM : Month now = m) by (unfold Month; now rewrite E).
  assert (ED : Day now = d) by (unfold Day; now rewrite E).
  unfold calculateLastMonthExpiry. rewrite EY, EM, ED.
  rewrite Day_last by exact Hm.
  set (x := Day expiryTime) in *.
  rewrite normDays_day in Hn.
  destruct (Z.leb_spec x d) as [Hxd|Hxd].
  - rewrite (proj2 (Z.leb_le x (daysIn m y)) ltac:(lia)).
    unfold After. rewrite unixNano_Date. cbn [unixNano now].
    destruct (Date_fields y m x Local Hm ltac:(lia)) as (FY & FM & FD).
    assert (Hle : (normDays y m 1 + x - 1) * nanosPerDay - Local * Second
                  <= nowNano).
    { change nanosPerDay with 86400000000000 in *.
      change Second with 1000000000 in *. lia. }
    rewrite (proj2 (Z.ltb_ge _ _) Hle).
    rewrite unixNano_Date, FY, FM, FD.
    repeat split; try reflexivity; lia.
  - unfold shiftToPreviousMonth.
    destruct (previous_then_next y m Hm) as (Ny & Nm & Hpm).
    cbv zeta in Ny, Nm, Hpm.
    set (py := if m - 1 <? 1 then y - 1 else y) in *.
    set (pm := if m - 1 <? 1 then 12 else m - 1) in *.
    rewrite Day_last by exact Hpm.
    pose proof (daysIn_bounds pm py) as Hlen.
    generalize (monthFacts_all py pm Hpm).
    unfold monthFacts. cbv zeta. rewrite Ny, Nm.
    rewrite !andb_true_iff, !Z.leb_le, Z.eqb_eq.
    intros ((Ha & _) & _).
    destruct (Z.ltb_spec (daysIn pm py) x) as [Hc|Hc].
    + destruct (Date_fields py pm (daysIn pm py) Local Hpm ltac:(lia))
        as (FY & FM & FD).
      rewrite unixNano_Date, FY, FM, FD.
      change nanosPerDay with 86400000000000 in *.
      change Second with 1000000000 in *.
      repeat split; try reflexivity; lia.
    + destruct (Date_fields py pm x Local Hpm ltac:(lia)) as (FY & FM & FD).
      rewrite unixNano_Date, FY, FM, FD.
      change nanosPerDay with 86400000000000 in *.
      change Second with 1000000000 in *.
      repeat split; try reflexivity; lia.
Qed.

(** ** Formatting *)

(** A rate is printed as the same amount of bytes, followed by ["/s"]. *)
Theorem FormatBytesPerSecond_is_FormatBytes_per_second (x : float64) :
  FormatBytesPerSecond x = FormatBytes x ++ "/s".
Proof.
  unfold FormatBytesPerSecond, FormatBytes.
  destruct (geb x TB); [now rewrite append_assoc|].
  destruct (geb x GB); [now rewrite append_assoc|].
  destruct (geb x MB); [now rewrite append_assoc|].
  destruct (geb x KB); now rewrite append_assoc.
Qed.





(** ** The time left *)







(** ** The natural windows *)

(** [time.Date] of the calendar fields of [t] is local midnight of the
    day of [t]. *)
Lemma startOfDay (t : Time) (loc : Location) :
  Date (Year t) (Month t) (Day t) loc
  = mkTime (localDay t * nanosPerDay - loc * Second) loc.
Proof.
  unfold Year, Month, Day.
  destruct (civilFromDays (localDay t)) as [[y m] d] eqn:E.
  destruct (day_in_month _ _ _ _ E) as (_ & _ & Hn).
  cbn [fst snd]. unfold Date. now rewrite Hn.
Qed.

Lemma localDay_yesterday (t : Time) :
  localDay (Add t (- 24 * Hour)) = localDay t - 1.
Proof.
  unfold localDay, Add. cbn [unixNano zone].
  replace (unixNano t + - 24 * Hour + zone t * Second)
    with (unixNano t + zone t * Second + (- 1) * nanosPerDay)
    by (unfold nanosPerDay; ring).
  rewrite Z.div_add by discriminate. ring.
Qed.

(** Yesterday's traffic is asked over the previous local day, from its
    midnight to one second before the midnight of today, whatever the
    time of day of [now]. The range is shorter than the step of 24
    hours, so the range query is evaluated at one instant only, the start
    of the range. *)
Theorem yesterday_range_is_the_previous_local_day (c : Client)
    (labels : Metric) (nowNano : Z) (Local : Location) :
  let now := mkTime nowNano Local in
  let start :=
    mkTime ((localDay now - 1) * nanosPerDay - Local * Second) Local in
  let end_ := Add start (24 * Hour - Second) in
  let step := 24 * Hour in
  let query metric :=
    increaseQuery metric (BuildLabelMatchers labels) "1d" in
  GetYesterdayTraffic c labels now
  = orReturn
      (QueryRange c (query "node_network_transmit_bytes_total")
         now start end_ step)
      "failed to query yesterday transmit bytes: %v"
      (fun transmitResult =>
    orReturn
      (QueryRange c (query "node_network_receive_bytes_total")
         now start end_ step)
      "failed to query yesterday transmit bytes: %v"
      (fun receiveResult => Ok (transmitResult, receiveResult))) /\
  unixNano end_ - unixNano start < step /\
  unixNano end_ < nowNano /\
  nowNano < unixNano start + 48 * Hour.
Proof.
  intros now start end_ step query.
  pose proof (localDay_bounds now) as Hnow. cbn [unixNano zone now] in Hnow.
  split.
  - unfold GetYesterdayTraffic. cbv zeta.
    rewrite !startOfDay, localDay_yesterday. cbn [zone now].
    fold now. fold start.
    replace (Add (mkTime (localDay now * nanosPerDay - Local * Second) Local)
               (- Second)) with end_.
    + reflexivity.
    + unfold end_, start, Add. cbn [unixNano zone]. f_equal.
      unfold nanosPerDay. ring.
  - unfold end_, start, step, Add. cbn [unixNano zone].
    change nanosPerDay with 86400000000000 in *.
    change Hour with 3600000000000.
    change Second with 1000000000 in *. lia.
Qed.

(** [%.0f] of the hours between [start] and a later [now]: the hours
    rounded to the nearest whole number, a half going to the even one. *)
Lemma hours_since (now start : Time) :
  0 <= unixNano now - unixNano start <= maxDuration ->
  fmt_0f (Hours (Sub now start))
  = digits (roundHalfEven (unixNano now - unixNano start) Hour).
Proof.
  intros H. unfold Sub.
  destruct (Z.ltb_spec (unixNano now - unixNano start) minDuration) as [H1|_];
    [unfold minDuration, minInt64 in H1; lia|].
  destruct (Z.ltb_spec maxDuration (unixNano now - unixNano start)) as [H2|_];
    [lia|].
  unfold fmt_0f, Hours. cbn [Qnum Qden].
  destruct (Z.ltb_spec (unixNano now - unixNano start) 0) as [H3|_]; [lia|].
  rewrite Z.abs_eq by lia. reflexivity.
Qed.

Lemma roundHalfEven_first_half (e den : Z) :
  0 < den -> 0 <= e -> 2 * e <= den -> roundHalfEven e den = 0.
Proof.
  intros Hden H0 H1. unfold roundHalfEven.
  rewrite Z.div_small, Z.mod_small by lia.
  destruct (Z.compare_spec (2 * e) den); [reflexivity|reflexivity|lia].
Qed.

(** Today's traffic is asked over the hours since local midnight, rounded
    to the nearest whole hour: during the first half hour of the day the
    range of the query is ["0h"]. *)
Theorem daily_range_is_the_rounded_hours_since_midnight (c : Client)
    (labels : Metric) (nowNano : Z) (Local : Location) :
  let now := mkTime nowNano Local in
  let e := nowNano - (localDay now * nanosPerDay - Local * Second) in
  0 <= e < 24 * Hour /\
  GetDailyTraffic c labels now
  = queryTrafficForDuration c labels
      (digits (roundHalfEven e Hour) ++ "h") now /\
  (e <= 30 * Minute ->
   GetDailyTraffic c labels now
   = queryTrafficForDuration c labels "0h" now).
Proof.
  intros now e.
  pose proof (localDay_bounds now) as Hnow. cbn [unixNano zone now] in Hnow.
  assert (He : 0 <= e < 24 * Hour).
  { unfold e. change nanosPerDay with 86400000000000 in *.
    change (24 * Hour) with 86400000000000. lia. }
  assert (E : GetDailyTraffic c labels now
              = queryTrafficForDuration c labels
                  (digits (roundHalfEven e Hour) ++ "h") now).
  { unfold GetDailyTraffic. cbv zeta.
    rewrite startOfDay, hours_since; cbn [unixNano zone now]; fold e.
    - reflexivity.
    - change (24 * Hour) with 86400000000000 in He.
      unfold maxDuration, maxInt64. lia. }
  split; [exact He|split; [exact E|]].
  intros Hh. rewrite E, roundHalfEven_first_half.
  - reflexivity.
  - reflexivity.
  - lia.
  - change (30 * Minute) with 1800000000000 in Hh.
    change Hour with 3600000000000. lia.
Qed.

(** The month's traffic is asked over the hours since local midnight of
    the first of the month, rounded to the nearest whole hour: during the
    first half hour of a month the range of the query is ["0h"]. *)
Theorem monthly_range_is_the_rounded_hours_since_the_first (c : Client)
    (labels : Metric) (nowNano : Z) (Local : Location) :
  let now := mkTime nowNano Local in
  let e := nowNano - unixNano (Date (Year now) (Month now) 1 Local) in
  0 <= e < 31 * (24 * Hour) /\
  GetNaturalMonthTraffic c labels now
  = queryTrafficForDuration c labels
      (digits (roundHalfEven e Hour) ++ "h") now /\
  (e <= 30 * Minute ->
   GetNaturalMonthTraffic c labels now
   = queryTrafficForDuration c labels "0h" now).
Proof.
  intros now e.
  pose proof (localDay_bounds now) as Hnow. cbn [unixNano zone now] in Hnow.
  assert (He : 0 <= e < 31 * (24 * Hour)).
  { unfold e, Year, Month.
    destruct (civilFromDays (localDay now)) as [[y m] d] eqn:E.
    destruct (day_in_month _ _ _ _ E) as (Hm & Hd & Hn).
    pose proof (daysIn_bounds m y) as Hlen.
    cbn [fst snd]. rewrite unixNano_Date. rewrite normDays_day in Hn.
    change nanosPerDay with 86400000000000 in *.
    change (24 * Hour) with 86400000000000.
    change Second with 1000000000 in *. lia. }
  assert (E : GetNaturalMonthTraffic c labels now
              = queryTrafficForDuration c labels
                  (digits (roundHalfEven e Hour) ++ "h") now).
  { unfold GetNaturalMonthTraffic. cbv zeta. cbn [zone now].
    rewrite hours_since; cbn [unixNano now]; fold e.
    - reflexivity.
    - change (24 * Hour) with 86400000000000 in He.
      unfold maxDuration, maxInt64. lia. }
  split; [exact He|split; [exact E|]].
  intros Hh. rewrite E, roundHalfEven_first_half.
  - reflexivity.
  - reflexivity.
  - lia.
  - change (30 * Minute) with 1800000000000 in Hh.
    change Hour with 3600000000000. lia.
Qed.

Lemma daily_range_is_the_rounded_hours_since_midnight_witness :
  GetDailyTraffic Scenario.noData Scenario.expiry10
    (mkTime (Scenario.at_ 2024 4 15 0 20) UTC)
  = queryTrafficForDuration Scenario.noData Scenario.expiry10 "0h"
      (mkTime (Scenario.at_ 2024 4 15 0 20) UTC).
Proof.
  destruct (daily_range_is_the_rounded_hours_since_midnight Scenario.noData
              Scenario.expiry10 (Scenario.at_ 2024 4 15 0 20) UTC)
    as (_ & _ & H).
  apply H. vm_compute. discriminate.
Defined.

Lemma monthly_range_is_the_rounded_hours_since_the_first_witness :
  GetNaturalMonthTraffic Scenario.noData Scenario.expiry10
    (mkTime (Scenario.at_ 2024 4 1 0 30) UTC)
  = queryTrafficForDuration Scenario.noData Scenario.expiry10 "0h"
      (mkTime (Scenario.at_ 2024 4 1 0 30) UTC).
Proof.
  destruct (monthly_range_is_the_rounded_hours_since_the_first
              Scenario.noData Scenario.expiry10
              (Scenario.at_ 2024 4 1 0 30) UTC)
    as (_ & _ & H).
  apply H. vm_compute. discriminate.
Defined.

Import Fleet Bot.

(** ** The menu stack *)

Lemma last_app_one {A : Type} (l : list A) (x d : A) :
  List.last (l ++ [x]) d = x.
Proof.
  induction l as [|a l IH]; [reflexivity|].
  cbn [app]. destruct (l ++ [x])%list eqn:E.
  - now destruct l.
  - cbn [List.last]. exact IH.
Qed.

Lemma menu_stack_laws (menuStack : list string) (menuID : string) :
  menuStack <> [] ->
  currentMenu (pushMenu menuStack menuID) = menuID /\
  popMenu (pushMenu menuStack menuID) = (menuStack, currentMenu menuStack) /\
  getPreviousMenuID (pushMenu menuStack menuID) = currentMenu menuStack.
Proof.
  unfold currentMenu, pushMenu. intros Hne.
  split; [apply last_app_one|].
  destruct menuStack as [|m0 rest]; [congruence|].
  assert (Hlen : (1 <? List.length ((m0 :: rest) ++ [menuID]))%nat = true).
  { rewrite length_app. cbn [List.length]. apply Nat.ltb_lt. lia. }
  split.
  - unfold popMenu. rewrite Hlen, removelast_last. reflexivity.
  - unfold getPreviousMenuID. rewrite Hlen, length_app.
    cbn [List.length].
    replace (S (List.length rest) + 1 - 2)%nat with (List.length rest)
      by lia.
    rewrite app_nth1 by (cbn [List.length]; lia).
    clear Hlen Hne. revert m0.
    induction rest as [|m1 rest IH]; intros m0; [reflexivity|].
    change (List.last (m0 :: m1 :: rest) mainMenuID)
      with (List.last (m1 :: rest) mainMenuID).
    cbn [List.length nth]. apply IH.
Qed.

(** The menu stack as [NewBot] starts it and [pushMenu] and [popMenu]
    change it: a push makes its menu the current one; a pop after a push
    gives back the stack and the menu there were before; the menu under
    the one pushed is what [getPreviousMenuID] returns; and neither
    operation ever empties a stack that holds a menu. *)
Theorem menu_stack_push_then_pop (menuStack : list string)
    (menuID : string) :
  menuStack <> [] ->
  currentMenu (pushMenu menuStack menuID) = menuID /\
  popMenu (pushMenu menuStack menuID) = (menuStack, currentMenu menuStack) /\
  getPreviousMenuID (pushMenu menuStack menuID) = currentMenu menuStack /\
  pushMenu menuStack menuID <> [] /\
  fst (popMenu menuStack) <> [].
Proof.
  intros Hne.
  destruct (menu_stack_laws menuStack menuID Hne) as (C & P & G).
  split; [exact C|split; [exact P|split; [exact G|split]]].
  - unfold pushMenu. now destruct menuStack.
  - unfold popMenu. destruct menuStack as [|m0 [|m1 rest]];
      [congruence|discriminate|].
    cbn [List.length]. change (1 <? S (S (List.length rest)))%nat with true.
    cbv iota. cbn [fst removelast]. discriminate.
Qed.

Lemma menu_stack_push_then_pop_witness :
  popMenu (pushMenu [mainMenuID; instanceMenuID] allInstancesMenuID)
  = ([mainMenuID; instanceMenuID], instanceMenuID).
Proof.
  destruct (menu_stack_push_then_pop [mainMenuID; instanceMenuID]
              allInstancesMenuID) as (_ & H & _); [discriminate|].
  exact H.
Defined.

(** ** Page callbacks *)

Lemma Split_nonempty (s : string) (sep : ascii) : Split s sep <> [].
Proof.
  destruct s as [|ch rest]; [discriminate|].
  cbn [Split]. destruct (Ascii.eqb ch sep); [discriminate|].
  destruct (Split rest sep); discriminate.
Qed.

Lemma Split_app (a b : string) (sep : ascii) :
  Split (a ++ String sep b) sep = (Split a sep ++ Split b sep)%list.
Proof.
  induction a as [|ch a IH].
  - cbn [append Split]. now rewrite Ascii.eqb_refl.
  - cbn [append Split]. rewrite IH.
    destruct (Ascii.eqb ch sep); [reflexivity|].
    pose proof (Split_nonempty a sep) as Hne.
    destruct (Split a sep); [congruence|reflexivity].
Qed.

Lemma Join_cons (x y : string) (rest : list string) (sep : string) :
  Join (x :: y :: rest) sep = x ++ sep ++ Join (y :: rest) sep.
Proof. reflexivity. Qed.

(** [strings.Join] undoes [strings.Split]. *)
Lemma Join_Split (s : string) (sep : ascii) :
  Join (Split s sep) (String sep "") = s.
Proof.
  induction s as [|ch rest IH]; [reflexivity|].
  cbn [Split]. pose proof (Split_nonempty rest sep) as Hne.
  destruct (Ascii.eqb_spec ch sep) as [->|Hch].
  - destruct (Split rest sep) as [|y others]; [congruence|].
    rewrite Join_cons, IH. reflexivity.
  - destruct (Split rest sep) as [|y others]; [congruence|].
    rewrite <- IH. now destruct others.
Qed.

Lemma isDigit_not_underscore (ch : ascii) :
  isDigit ch = true -> Ascii.eqb ch "_" = false.
Proof.
  intros H. destruct (Ascii.eqb_spec ch "_") as [->|]; [|reflexivity].
  discriminate H.
Qed.

Lemma Split_digits (s : string) :
  allDigits s = true -> s <> "" -> Split s "_" = [s].
Proof.
  induction s as [|ch rest IH]; [congruence|].
  cbn [allDigits]. intros H _. apply andb_true_iff in H. destruct H as [Hc Hr].
  cbn [Split]. rewrite (isDigit_not_underscore ch Hc).
  destruct rest as [|ch' rest']; [reflexivity|].
  rewrite IH by (try exact Hr; discriminate). reflexivity.
Qed.

Lemma Split_fmt_d (z : Z) : Split (fmt_d z) "_" = [fmt_d z].
Proof.
  unfold fmt_d. destruct (Z.ltb_spec z 0) as [H|H].
  - destruct (digits_shape (- z) ltac:(lia)) as [Hne Hd].
    change ("-" ++ digits (- z)) with (String "-" (digits (- z))).
    cbn [Split]. change (Ascii.eqb "-" "_") with false. cbv iota.
    now rewrite Split_digits.
  - destruct (digits_shape z H) as [Hne Hd]. now apply Split_digits.
Qed.

Lemma digitVal_digitChar (d : Z) :
  0 <= d < 10 -> digitVal (digitChar d) = Some d.
Proof.
  intros Hd.
  assert (H : d = 0 \/ d = 1 \/ d = 2 \/ d = 3 \/ d = 4 \/ d = 5 \/ d = 6 \/
              d = 7 \/ d = 8 \/ d = 9) by lia.
  repeat (destruct H as [->|H]; [reflexivity|]). now subst.
Qed.

Lemma parseDigits_digitsFuel (fuel : nat) :
  forall n rest, 0 <= n < 2 ^ Z.of_nat fuel ->
  parseDigits (digitsFuel fuel n rest) 0 = parseDigits rest n.
Proof.
  induction fuel as [|fuel IH]; intros n rest Hn.
  - cbn [digitsFuel]. change (2 ^ Z.of_nat 0) with 1 in Hn.
    now replace n with 0 by lia.
  - cbn [digitsFuel].
    pose proof (Z.mod_pos_bound n 10 eq_refl) as Hm.
    pose proof (Z.div_mod n 10 ltac:(lia)) as Hdm.
    destruct (Z.ltb_spec n 10) as [Hlt|Hge].
    + cbn [parseDigits]. rewrite digitVal_digitChar by exact Hm.
      rewrite Z.mod_small by lia. reflexivity.
    + rewrite IH.
      * cbn [parseDigits]. rewrite digitVal_digitChar by exact Hm.
        f_equal. lia.
      * rewrite Nat2Z.inj_succ, Z.pow_succ_r in Hn by lia.
        assert (0 <= n / 10) by (apply Z.div_pos; lia). lia.
Qed.

Lemma parseDigits_digits (n : Z) :
  0 <= n -> parseDigits (digits n) 0 = Some n.
Proof.
  intros Hn. unfold digits. rewrite parseDigits_digitsFuel; [reflexivity|].
  split; [exact Hn|].
  rewrite Nat2Z.inj_succ, Z2Nat.id by apply Z.log2_nonneg.
  destruct (Z.eq_dec n 0) as [->|Hne]; [reflexivity|].
  apply Z.log2_spec. lia.
Qed.

Lemma Atoi_unsigned (ch : ascii) (rest : string) :
  isDigit ch = true ->
  Atoi (String ch rest)
  = match parseDigits (String ch rest) 0 with
    | Some n => if inInt64 n then Some n else None
    | None => None
    end.
Proof.
  intros H.
  destruct ch as [[] [] [] [] [] [] [] []];
    try (exfalso; vm_compute in H; discriminate H); reflexivity.
Qed.

(** [strconv.Atoi] reads back what [%d] printed. *)
Lemma Atoi_fmt_d (z : Z) : inInt64 z = true -> Atoi (fmt_d z) = Some z.
Proof.
  intros Hz. unfold fmt_d. destruct (Z.ltb_spec z 0) as [H|H].
  - destruct (digits_shape (- z) ltac:(lia)) as [Hne _].
    change ("-" ++ digits (- z)) with (String "-" (digits (- z))).
    unfold Atoi. pose proof (parseDigits_digits (- z) ltac:(lia)) as Hp.
    destruct (digits (- z)) as [|ch rest]; [congruence|].
    rewrite Hp, Z.opp_involutive, Hz. reflexivity.
  - destruct (digits_shape z H) as [Hne Hd].
    pose proof (parseDigits_digits z H) as Hp.
    destruct (digits z) as [|ch rest]; [congruence|].
    cbn [allDigits] in Hd. apply andb_true_iff in Hd.
    rewrite Atoi_unsigned by apply Hd. now rewrite Hp, Hz.
Qed.

Lemma pageCallback_parts (verb menuID : string) (page : Z) :
  inInt64 page = true ->
  let parts := Split (verb ++ String "_" (menuID ++ String "_" (fmt_d page)))
                 "_" in
  (List.length parts <? 3)%nat = false /\
  Atoi (List.last parts "") = Some page /\
  (Split verb "_" = [verb] ->
   Join (removelast (tl parts)) "_" = menuID).
Proof.
  intros Hp parts. unfold parts. rewrite !Split_app, Split_fmt_d.
  pose proof (Split_nonempty verb "_") as Hv.
  pose proof (Split_nonempty menuID "_") as Hm.
  split; [|split].
  - rewrite !length_app. cbn [List.length].
    destruct (Split verb "_"); [congruence|].
    destruct (Split menuID "_"); [congruence|].
    cbn [List.length]. apply Nat.ltb_ge. lia.
  - rewrite app_assoc, last_app_one. now apply Atoi_fmt_d.
  - intros ->. cbn [app tl]. rewrite removelast_last. apply Join_Split.
Qed.

(** The data that the page buttons carry, ["prev_<menu>_<page>"] and
    ["next_<menu>_<page>"], is read back by [handleCallback] as that menu
    and that page, for every menu identifier, underscores included, and
    every page number. *)
Theorem page_buttons_decode_to_their_page (menuID : string) (page : Z) :
  inInt64 page = true ->
  pageCallback (prevData menuID page) = TurnTo menuID page /\
  pageCallback (nextData menuID page) = TurnTo menuID page.
Proof.
  intros Hp.
  destruct (pageCallback_parts "prev" menuID page Hp) as (L1 & A1 & J1).
  destruct (pageCallback_parts "next" menuID page Hp) as (L2 & A2 & J2).
  cbv zeta in *.
  split; unfold pageCallback, prevData, nextData.
  - change ("prev_" ++ menuID ++ "_" ++ fmt_d page)
      with ("prev" ++ String "_" (menuID ++ String "_" (fmt_d page))).
    change (HasPrefix ("prev" ++ String "_" _) "prev_") with true.
    cbn [orb]. rewrite L1, A1, J1 by reflexivity. reflexivity.
  - change ("next_" ++ menuID ++ "_" ++ fmt_d page)
      with ("next" ++ String "_" (menuID ++ String "_" (fmt_d page))).
    change (HasPrefix ("next" ++ String "_" _) "prev_") with false.
    change (HasPrefix ("next" ++ String "_" _) "next_") with true.
    cbn [orb]. rewrite L2, A2, J2 by reflexivity. reflexivity.
Qed.

Lemma page_buttons_decode_to_their_page_witness :
  pageCallback "prev_all_instances_2" = TurnTo allInstancesMenuID 2.
Proof.
  destruct (page_buttons_decode_to_their_page allInstancesMenuID 2 eq_refl)
    as [H _].
  exact H.
Defined.

(** ** The paged instance menus *)









(** A page callback that names page 0 is accepted by [handleCallback],
    which then calls the page function with it. *)
Lemma page_zero_is_accepted :
  pageCallback "prev_all_instances_0" = TurnTo allInstancesMenuID 0.
Proof. reflexivity. Qed.

(** ** The rankings by total traffic *)

(** The order of binary64 values is transitive and irreflexive. *)
Lemma SFltb_trans (a b c : float64) :
  SFltb a b = true -> SFltb b c = true -> SFltb a c = true.
Proof.
  unfold SFltb, SFcompare.
  destruct a as [sa|sa| |sa ma ea], b as [sb|sb| |sb mb eb],
           c as [sc|sc| |sc mc ec];
    try destruct sa; try destruct sb; try destruct sc;
    try discriminate; try reflexivity;
    change (PosDef.Pos.compare_cont Eq) with Pos.compare;
    destruct (Z.compare_spec ea eb), (Z.compare_spec eb ec),
             (Z.compare_spec ea ec);
    try discriminate; try reflexivity; try lia; subst;
    destruct (Pos.compare_spec ma mb), (Pos.compare_spec mb mc),
             (Pos.compare_spec ma mc);
    cbn; try discriminate; try reflexivity; try lia; subst; lia.
Qed.

Lemma SFltb_irrefl (a : float64) : SFltb a a = false.
Proof.
  unfold SFltb, SFcompare.
  destruct a as [sa|sa| |sa ma ea]; try destruct sa; try reflexivity;
    now rewrite Z.compare_refl, Pos.compare_cont_refl.
Qed.

(** What the last loop of a ranking keeps after the entries [entries],
    having kept [best] from the entries [seen] before them. *)
Lemma highest_fold (entries : list (string * float64)) :
  forall (seen : list (string * float64)) (best : string * float64),
  (forall e, In e seen -> gtb (snd e) (snd best) = false) ->
  (best = ("", zero) \/ In best seen /\ gtb (snd best) zero = true) ->
  let out :=
    fold_left
      (fun best entry => if gtb (snd entry) (snd best) then entry else best)
      entries best in
  (forall e, In e (seen ++ entries) -> gtb (snd e) (snd out) = false) /\
  (out = ("", zero)
   \/ In out (seen ++ entries) /\ gtb (snd out) zero = true).
Proof.
  induction entries as [|e0 entries IH]; intros seen best Hmax Hbest.
  - cbn [fold_left]. rewrite app_nil_r. split; assumption.
  - cbn [fold_left].
    replace (seen ++ e0 :: entries)%list with ((seen ++ [e0]) ++ entries)%list
      by (now rewrite <- app_assoc).
    apply IH.
    + intros e He. apply in_app_or in He.
      destruct (gtb (snd e0) (snd best)) eqn:Hg.
      * destruct He as [He|[<-|[]]]; [|apply SFltb_irrefl].
        specialize (Hmax e He). unfold gtb in *.
        destruct (SFltb (snd e0) (snd e)) eqn:Hlt; [|reflexivity].
        now rewrite (SFltb_trans _ _ _ Hg Hlt) in Hmax.
      * destruct He as [He|[<-|[]]]; [now apply Hmax|exact Hg].
    + destruct (gtb (snd e0) (snd best)) eqn:Hg.
      * right. split; [apply in_or_app; right; now left|].
        destruct Hbest as [->|[_ Hpos]]; [exact Hg|].
        unfold gtb in *. exact (SFltb_trans _ _ _ Hpos Hg).
      * destruct Hbest as [->|[Hin Hpos]]; [now left|].
        right. split; [apply in_or_app; now left|exact Hpos].
Qed.

Lemma highest_spec (entries : list (string * float64)) :
  (forall e, In e entries -> gtb (snd e) (snd (highest entries)) = false) /\
  (highest entries = ("", zero)
   \/ In (highest entries) entries /\ gtb (snd (highest entries)) zero = true).
Proof.
  apply (highest_fold entries [] ("", zero)); [intros e []|now left].
Qed.

(** The total of an instance, one point later. *)
Lemma totalOf_snoc (instance : string) (points : list Sample) (p : Sample) :
  totalOf instance (points ++ [p])
  = if (lookup (sMetric p) "instance" =? instance)%string
    then add (totalOf instance points) (sValue p)
    else totalOf instance points.
Proof. unfold totalOf. now rewrite fold_left_app. Qed.

Lemma totalOf_absent (instance : string) (points : list Sample) :
  (forall p, In p points -> lookup (sMetric p) "instance" <> instance) ->
  totalOf instance points = zero.
Proof.
  induction points as [|p points IH] using rev_ind; intros H; [reflexivity|].
  rewrite totalOf_snoc.
  destruct (String.eqb_spec (lookup (sMetric p) "instance") instance) as [E|_].
  - exfalso. apply (H p); [apply in_or_app; right; now left|exact E].
  - apply IH. intros q Hq. apply H. apply in_or_app. now left.
Qed.

(** [trafficMap[instance] += value], entry by entry. *)
Lemma addTo_spec (m : list (string * float64)) (k : string) (v : float64) :
  NoDup (map fst m) ->
  NoDup (map fst (addTo m k v)) /\
  (forall i t, In (i, t) (addTo m k v) <->
     (i <> k /\ In (i, t) m)
     \/ (i = k /\ ((exists t0, In (k, t0) m /\ t = add t0 v)
                   \/ (~ In k (map fst m) /\ t = add zero v)))).
Proof.
  induction m as [|[k' v'] m IH]; intros Hnd.
  - cbn [addTo map]. split; [repeat constructor; intros []|].
    intros i t. cbn [In]. split.
    + intros [[= <- <-]|[]]. right. split; [reflexivity|].
      right. split; [intros []|reflexivity].
    + intros [[_ []]|[-> [[t0 [[] _]]|[_ ->]]]]. now left.
  - cbn [map fst] in Hnd. inversion Hnd as [|? ? Hnotin Hnd']. subst.
    destruct (IH Hnd') as [IHnd IHin]. clear IH.
    cbn [addTo]. destruct (String.eqb_spec k' k) as [->|Hne].
    + split; [exact Hnd|].
      intros i t. cbn [In]. split.
      * intros [[= <- <-]|Hin].
        -- right. split; [reflexivity|]. left. exists v'. split; [now left|].
           reflexivity.
        -- left. split; [|now right]. intros ->. apply Hnotin.
           now apply (in_map fst m (k, t)).
      * intros [[Hik [[= -> ->]|Hin]]|[-> [[t0 [[[= ->]|Hin] ->]]|[Hnot _]]]].
        -- congruence.
        -- now right.
        -- now left.
        -- exfalso. apply Hnotin. now apply (in_map fst m (k, t0)).
        -- exfalso. apply Hnot. now left.
    + split.
      * cbn [map fst]. constructor; [|exact IHnd].
        intros Hin. apply in_map_iff in Hin. destruct Hin as [[i t] [Hi Hin]].
        cbn [fst] in Hi. subst i. apply IHin in Hin.
        destruct Hin as [[_ Hin]|[-> _]]; [|congruence].
        apply Hnotin. now apply (in_map fst m (k', t)).
      * intros i t. cbn [In map fst]. rewrite IHin. split.
        -- intros [[= <- <-]|[[Hik Hin]|[-> [[t0 [Hin ->]]|[Hnot ->]]]]].
           ++ left. split; [exact Hne|now left].
           ++ left. split; [exact Hik|now right].
           ++ right. split; [reflexivity|]. left. exists t0.
              split; [now right|reflexivity].
           ++ right. split; [reflexivity|]. right.
              split; [|reflexivity]. intros [E|Hin]; [congruence|now apply Hnot].
        -- intros [[Hik [[= <- <-]|Hin]]
                  |[-> [[t0 [[[= E _]|Hin] ->]]|[Hnot ->]]]].
           ++ now left.
           ++ right. left. split; assumption.
           ++ congruence.
           ++ right. right. split; [reflexivity|]. left. now exists t0.
           ++ right. right. split; [reflexivity|]. right.
              split; [|reflexivity]. intros Hin. apply Hnot. now right.
Qed.

(** The map after the loops over the points [points]: one entry for each
    instance that has a point, holding the total of the instance. *)
Lemma trafficMap_spec (points : list Sample) :
  let m :=
    fold_left
      (fun m point =>
         addTo m (lookup (sMetric point) "instance") (sValue point))
      points [] in
  NoDup (map fst m) /\
  (forall i t, In (i, t) m <->
     (exists p, In p points /\ lookup (sMetric p) "instance" = i)
     /\ t = totalOf i points).
Proof.
  induction points as [|p points IH] using rev_ind.
  - cbn. split; [constructor|]. intros i t. split; [intros []|].
    intros [[p [[] _]] _].
  - cbv zeta in *. rewrite fold_left_app. cbn [fold_left].
    destruct IH as [IHnd IHin].
    set (m := fold_left _ points []) in *.
    destruct (addTo_spec m (lookup (sMetric p) "instance") (sValue p) IHnd)
      as [Hnd Hin].
    split; [exact Hnd|].
    intros i t. rewrite Hin, totalOf_snoc. clear Hin. split.
    + intros [[Hik Hi]|[-> [[t0 [Hi ->]]|[Hnot ->]]]].
      * apply IHin in Hi. destruct Hi as [[q [Hq Eq]] ->].
        rewrite (proj2 (String.eqb_neq _ _)) by congruence.
        split; [|reflexivity]. exists q.
        split; [apply in_or_app; now left|exact Eq].
      * apply IHin in Hi. destruct Hi as [_ ->].
        rewrite String.eqb_refl. split; [|reflexivity].
        exists p. split; [apply in_or_app; right; now left|reflexivity].
      * rewrite String.eqb_refl. split.
        -- exists p. split; [apply in_or_app; right; now left|reflexivity].
        -- rewrite totalOf_absent; [reflexivity|].
           intros q Hq Eq. apply Hnot.
           apply (in_map fst m
                    (lookup (sMetric p) "instance",
                     totalOf (lookup (sMetric p) "instance") points)).
           apply IHin. split; [|reflexivity]. now exists q.
    + intros [[q [Hq Eq]] ->].
      destruct (String.eqb_spec (lookup (sMetric p) "instance") i) as [E|E].
      * right. split; [now symmetry|]. rewrite E.
        destruct (in_dec String.string_dec i (map fst m)) as [Hk|Hk].
        -- left. apply in_map_iff in Hk. destruct Hk as [[i' t0] [Ei Hk]].
           cbn [fst] in Ei. subst i'. exists t0. split; [exact Hk|].
           apply IHin in Hk. destruct Hk as [_ ->]. reflexivity.
        -- right. split; [exact Hk|]. rewrite totalOf_absent; [reflexivity|].
           intros q' Hq' Eq'. apply Hk.
           apply (in_map fst m (i, totalOf i points)).
           apply IHin. split; [|reflexivity]. now exists q'.
      * left. split; [congruence|]. apply IHin. split; [|reflexivity].
        apply in_app_or in Hq. destruct Hq as [Hq|[<-|[]]]; [|congruence].
        now exists q.
Qed.

Lemma addVector_points (up down : Value) :
  addVector (addVector [] up) down
  = fold_left
      (fun m point =>
         addTo m (lookup (sMetric point) "instance") (sValue point))
      (pointsOf up ++ pointsOf down) [].
Proof.
  rewrite fold_left_app.
  destruct up, down; reflexivity.
Qed.

(** What each of the three rankings by total traffic returns, in whatever
    order [range] visits the map. *)
Lemma highestTotal_spec
    (rangeOrder : list (string * float64) -> list (string * float64))
    (c : Client) (queryUpload queryDownload uploadFailed downloadFailed
                    : string)
    (now : Time) (out : string * float64) :
  (forall m, Permutation (rangeOrder m) m) ->
  highestTotal rangeOrder c queryUpload queryDownload uploadFailed
    downloadFailed now = Ok out ->
  exists up down,
    QueryPrometheus c queryUpload now = Ok up /\
    QueryPrometheus c queryDownload now = Ok down /\
    let points := (pointsOf up ++ pointsOf down)%list in
    (forall p, In p points ->
       gtb (totalOf (lookup (sMetric p) "instance") points) (snd out)
       = false) /\
    (out = ("", zero)
     \/ (exists p, In p points /\ lookup (sMetric p) "instance" = fst out)
        /\ snd out = totalOf (fst out) points
        /\ gtb (snd out) zero = true).
Proof.
  intros Hperm. unfold highestTotal.
  destruct (QueryPrometheus c queryUpload now) as [up|e|msg];
    cbn [orReturn]; try discriminate.
  destruct (QueryPrometheus c queryDownload now) as [down|e|msg];
    cbn [orReturn]; try discriminate.
  cbv zeta. rewrite addVector_points. intros [= <-].
  exists up, down. split; [reflexivity|split; [reflexivity|]].
  cbv zeta. set (points := (pointsOf up ++ pointsOf down)%list).
  destruct (trafficMap_spec points) as [_ Hin]. cbv zeta in Hin.
  set (m := fold_left _ points []) in *.
  destruct (highest_spec (rangeOrder m)) as [Hmax Hbest].
  split.
  - intros p Hp.
    apply (Hmax (lookup (sMetric p) "instance",
                 totalOf (lookup (sMetric p) "instance") points)).
    apply (Permutation_in _ (Permutation_sym (Hperm m))).
    apply Hin. split; [now exists p|reflexivity].
  - destruct Hbest as [E|[Hb Hpos]]; [now left|]. right.
    apply (Permutation_in _ (Hperm m)) in Hb.
    destruct (highest (rangeOrder m)) as [i t]. apply Hin in Hb.
    destruct Hb as [Hex ->]. cbn [fst snd] in *.
    split; [exact Hex|split; [reflexivity|exact Hpos]].
Qed.

(** The three rankings by total traffic ([GetHighestTotalTrafficInstance]
    and its daily and monthly twins) return an instance whose total, the
    sum of its upload and download points in the order of the answers, no
    other instance exceeds, together with that total; when no total is
    greater than zero they return the empty name and zero. This holds in
    whatever order [range] visits the map. *)
Theorem total_rankings_return_a_highest_total
    (rangeOrder : list (string * float64) -> list (string * float64))
    (c : Client) (now : Time) (out : string * float64) :
  (forall m, Permutation (rangeOrder m) m) ->
  GetHighestTotalTrafficInstance rangeOrder c now = Ok out
  \/ GetHighestDailyTotalTrafficInstance rangeOrder c now = Ok out
  \/ GetHighestMonthlyTotalTrafficInstance rangeOrder c now = Ok out ->
  exists queryUpload queryDownload up down,
    QueryPrometheus c queryUpload now = Ok up /\
    QueryPrometheus c queryDownload now = Ok down /\
    let points := (pointsOf up ++ pointsOf down)%list in
    (forall p, In p points ->
       gtb (totalOf (lookup (sMetric p) "instance") points) (snd out)
       = false) /\
    (out = ("", zero)
     \/ (exists p, In p points /\ lookup (sMetric p) "instance" = fst out)
        /\ snd out = totalOf (fst out) points
        /\ gtb (snd out) zero = true).
Proof.
  intros Hperm [H|[H|H]];
    [unfold GetHighestTotalTrafficInstance in H
    |unfold GetHighestDailyTotalTrafficInstance in H
    |unfold GetHighestMonthlyTotalTrafficInstance in H];
    cbv zeta in H;
    destruct (highestTotal_spec _ _ _ _ _ _ _ _ Hperm H)
      as (up & down & H1 & H2 & H3);
    do 2 eexists; exists up, down; (split; [exact H1|split; [exact H2|]]);
    exact H3.
Qed.

Lemma total_rankings_return_a_highest_total_witness :
  let fleet :=
    mkClient
      (fun _ _ =>
         Answer (ValVector [mkSample [("instance", "a")] (ofZ 1);
                            mkSample [("instance", "b")] (ofZ 2)]))
      (fun _ _ _ _ => Answer (ValMatrix [])) in
  exists out,
    GetHighestTotalTrafficInstance (fun m => m) fleet (mkTime 0 UTC) = Ok out
    /\ out = ("b", ofZ 4).
Proof.
  intros fleet.
  destruct (GetHighestTotalTrafficInstance (fun m => m) fleet (mkTime 0 UTC))
    as [out|e|msg] eqn:E;
    [|vm_compute in E; discriminate|vm_compute in E; discriminate].
  destruct (total_rankings_return_a_highest_total (fun m => m) fleet
              (mkTime 0 UTC) out
              (fun m => Permutation_refl m) (or_introl E))
    as (qu & qd & up & down & _ & _ & _ & _).
  exists out. split; [reflexivity|].
  vm_compute in E. injection E as <-. vm_compute. reflexivity.
Defined.

(** ** The way back *)

(** The "back" button of a menu page carries [getPreviousMenuID] as its
    callback data, and [handleCallback] pushes the data of a menu
    callback: going back never takes a menu off the stack. After "back"
    the current menu is the previous one and the previous menu is the one
    just left, so a second "back" shows the page one came from, on a
    stack that is two menus longer. *)
Theorem back_pushes_and_toggles (menuStack afterBack afterBackAgain
                                   : list string) :
  (1 < List.length menuStack)%nat ->
  menuCallback menuStack (getPreviousMenuID menuStack) = Some afterBack ->
  menuCallback afterBack (getPreviousMenuID afterBack)
  = Some afterBackAgain ->
  currentMenu afterBack = getPreviousMenuID menuStack /\
  getPreviousMenuID afterBack = currentMenu menuStack /\
  currentMenu afterBackAgain = currentMenu menuStack /\
  List.length afterBackAgain = S (S (List.length menuStack)).
Proof.
  intros Hlen H1 H2.
  assert (Hpush : forall s data s',
             menuCallback s data = Some s' -> s' = pushMenu s data).
  { intros s data s'. unfold menuCallback.
    destruct (pageCallback data); try discriminate.
    destruct (HasPrefix data "instance_detail:"); try discriminate.
    destruct (isMenuID data); try discriminate. now intros [= <-]. }
  apply Hpush in H1, H2. subst afterBackAgain.
  assert (Hne : menuStack <> []) by (destruct menuStack; [cbn in Hlen; lia|discriminate]).
  destruct (menu_stack_laws menuStack (getPreviousMenuID menuStack) Hne)
    as (C1 & P1 & G1).
  rewrite <- H1 in *.
  assert (Hne' : afterBack <> []).
  { rewrite H1. unfold pushMenu. now destruct menuStack. }
  destruct (menu_stack_laws afterBack (getPreviousMenuID afterBack) Hne')
    as (C2 & _ & _).
  split; [exact C1|split; [exact G1|split]].
  - rewrite C2. exact G1.
  - unfold pushMenu. rewrite length_app, H1. unfold pushMenu.
    rewrite length_app. cbn [List.length]. lia.
Qed.

Lemma back_pushes_and_toggles_witness :
  menuCallback [mainMenuID; instanceMenuID; instanceOverviewMenuID]
    instanceMenuID
  = Some [mainMenuID; instanceMenuID; instanceOverviewMenuID;
          instanceMenuID] /\
  getPreviousMenuID [mainMenuID; instanceMenuID; instanceOverviewMenuID;
                     instanceMenuID]
  = instanceOverviewMenuID.
Proof.
  destruct (back_pushes_and_toggles
              [mainMenuID; instanceMenuID; instanceOverviewMenuID]
              [mainMenuID; instanceMenuID; instanceOverviewMenuID;
               instanceMenuID]
              [mainMenuID; instanceMenuID; instanceOverviewMenuID;
               instanceMenuID; instanceOverviewMenuID]
              ltac:(cbn; lia) eq_refl eq_refl) as (_ & G & _).
  split; [reflexivity|exact G].
Defined.

Import Utils.

(** ** The loop of [utils.CalculateLastMonthExpiry] *)

Lemma stepBack_facts (year month : Z) :
  1 <= month <= 12 ->
  1 <= snd (stepBack year month) <= 12 /\
  normDays year month 1
  = normDays (fst (stepBack year month)) (snd (stepBack year month)) 1
    + daysIn (snd (stepBack year month)) (fst (stepBack year month)).
Proof.
  intros Hm. unfold stepBack.
  destruct (Z.eqb_spec month 1) as [->|Hne]; cbn [fst snd].
  - split; [lia|].
    generalize (monthFacts_all (year - 1) 12 ltac:(lia)).
    unfold monthFacts. cbv zeta. change (12 <? 12 + 1) with true. cbv iota.
    replace (year - 1 + 1) with year by ring.
    rewrite !andb_true_iff, Z.eqb_eq. lia.
  - split; [lia|].
    generalize (monthFacts_all year (month - 1) ltac:(lia)).
    unfold monthFacts. cbv zeta.
    rewrite (proj2 (Z.ltb_ge 12 (month - 1 + 1))) by lia.
    replace (month - 1 + 1) with month by ring.
    rewrite !andb_true_iff, Z.eqb_eq. lia.
Qed.

(** The expiry time of a turn is the day asked for, cut down to the
    length of the month. *)
Lemma monthExpiry_fields (Local : Location) (year month dayOfMonth : Z) :
  1 <= month <= 12 -> 1 <= dayOfMonth ->
  let r := monthExpiry Local year month dayOfMonth in
  Year r = year /\ Month r = month /\
  Day r = Z.min dayOfMonth (daysIn month year) /\
  unixNano r
  = (normDays year month 1 + Z.min dayOfMonth (daysIn month year) - 1)
    * nanosPerDay - Local * Second.
Proof.
  intros Hm Hd r. unfold r, monthExpiry. rewrite Day_last by exact Hm.
  pose proof (daysIn_bounds month year) as Hlen.
  destruct (Z.ltb_spec (daysIn month year) dayOfMonth) as [H|H].
  - rewrite Z.min_r by lia. rewrite unixNano_Date.
    destruct (Date_fields year month (daysIn month year) Local Hm
                ltac:(lia)) as (FY & FM & FD).
    repeat split; assumption.
  - rewrite Z.min_l by lia. rewrite unixNano_Date.
    destruct (Date_fields year month dayOfMonth Local Hm ltac:(lia))
      as (FY & FM & FD).
    repeat split; assumption.
Qed.

(** More turns do not change what the loop returned. *)
Lemma lastMonthExpiryLoop_more (Local : Location) (dayOfMonth : Z)
    (now : Time) (fuel : nat) :
  forall year month r (more : nat),
  lastMonthExpiryLoop fuel Local dayOfMonth year month now = Some r ->
  lastMonthExpiryLoop (fuel + more) Local dayOfMonth year month now = Some r.
Proof.
  induction fuel as [|fuel IH]; intros year month r more; [discriminate|].
  cbn [lastMonthExpiryLoop Nat.add].
  destruct (stepBack year month) as [year' month'].
  destruct (negb (After _ now)); [trivial|apply IH].
Qed.

(** The loop returns within one turn more than the number of 28-day
    spans between [now] and the first of the month it starts from. *)
Lemma lastMonthExpiryLoop_returns (Local : Location) (dayOfMonth nowNano : Z) :
  1 <= dayOfMonth <= 31 ->
  let now := mkTime nowNano Local in
  forall (fuel : nat) (year month : Z),
  1 <= month <= 12 ->
  normDays year month 1 - localDay now <= 1 + 28 * Z.of_nat fuel ->
  exists r,
    lastMonthExpiryLoop (S fuel) Local dayOfMonth year month now = Some r /\
    unixNano r <= nowNano /\
    Day r = Z.min dayOfMonth (daysIn (Month r) (Year r)) /\
    1 <= Month r <= 12 /\
    normDays (Year r) (Month r) 1 < normDays year month 1.
Proof.
  intros Hd now.
  pose proof (localDay_bounds now) as Hnow. cbn [unixNano zone now] in Hnow.
  induction fuel as [|fuel IH]; intros year month Hm HT;
    destruct (stepBack_facts year month Hm) as [Hm' Hstart];
    cbn [lastMonthExpiryLoop];
    destruct (stepBack year month) as [year' month']; cbn [fst snd] in *;
    destruct (monthExpiry_fields Local year' month' dayOfMonth Hm'
                ltac:(lia)) as (FY & FM & FD & FN);
    pose proof (daysIn_bounds month' year') as Hlen;
    cbv zeta in FY, FM, FD, FN; unfold After; cbn [unixNano now].
  - assert (Hle : unixNano (monthExpiry Local year' month' dayOfMonth)
                  <= nowNano).
    { rewrite FN. change nanosPerDay with 86400000000000 in *.
      change Second with 1000000000 in *. lia. }
    rewrite (proj2 (Z.ltb_ge _ _) Hle). cbn [negb].
    eexists. split; [reflexivity|]. rewrite FY, FM, FD.
    repeat split; try assumption; lia.
  - destruct (Z.ltb_spec nowNano
                (unixNano (monthExpiry Local year' month' dayOfMonth)))
      as [Hgt|Hle]; cbn [negb].
    + destruct (IH year' month' Hm' ltac:(lia))
        as (r & Er & R1 & R2 & R3 & R4).
      exists r. split; [exact Er|]. repeat split; try assumption; lia.
    + eexists. split; [reflexivity|]. rewrite FY, FM, FD.
      repeat split; try assumption; lia.
Qed.

(** [utils.CalculateLastMonthExpiry] returns for every expiry time and
    every [now]: its loop ends after finitely many turns. What it returns
    is not after [now]; it falls in a month before the month of the
    expiry time, on the day of the expiry time, or on the last day of a
    month that is too short. *)
Theorem CalculateLastMonthExpiry_returns (Local : Location)
    (expiryTime : Time) (nowNano : Z) :
  let now := mkTime nowNano Local in
  exists (turns : nat) (r : Time),
    (forall fuel, (turns <= fuel)%nat ->
       CalculateLastMonthExpiry fuel Local expiryTime now = Some r) /\
    unixNano r <= nowNano /\
    Day r = Z.min (Day expiryTime) (daysIn (Month r) (Year r)) /\
    normDays (Year r) (Month r) 1
    < normDays (Year expiryTime) (Month expiryTime) 1.
Proof.
  intros now. unfold CalculateLastMonthExpiry.
  pose proof (Day_range expiryTime) as Hd.
  assert (Hm : 1 <= Month expiryTime <= 12).
  { unfold Month.
    destruct (civilFromDays (localDay expiryTime)) as [[y m] d] eqn:E.
    destruct (day_facts _ _ _ _ E) as (Hm & _). exact Hm. }
  set (T := normDays (Year expiryTime) (Month expiryTime) 1 - localDay now).
  set (n := Z.to_nat (Z.max 0 T / 28 + 1)).
  assert (HT : T <= 1 + 28 * Z.of_nat n).
  { unfold n.
    assert (0 <= Z.max 0 T / 28) by (apply Z.div_pos; lia).
    rewrite Z2Nat.id by lia.
    pose proof (Z.div_mod (Z.max 0 T) 28 ltac:(lia)).
    pose proof (Z.mod_pos_bound (Z.max 0 T) 28 ltac:(lia)). lia. }
  destruct (lastMonthExpiryLoop_returns Local (Day expiryTime) nowNano Hd n
              (Year expiryTime) (Month expiryTime) Hm HT)
    as (r & Er & R1 & R2 & _ & R4).
  exists (S n), r. split; [|split; [exact R1|split; [exact R2|exact R4]]].
  intros fuel Hf. replace fuel with (S n + (fuel - S n))%nat by lia.
  now apply lastMonthExpiryLoop_more.
Qed.

Lemma CalculateLastMonthExpiry_returns_witness :
  exists turns r,
    CalculateLastMonthExpiry turns UTC (Date 2024 3 31 UTC)
      (mkTime (Scenario.at_ 2024 3 15 12 0) UTC) = Some r /\
    unixNano r <= Scenario.at_ 2024 3 15 12 0.
Proof.
  destruct (CalculateLastMonthExpiry_returns UTC (Date 2024 3 31 UTC)
              (Scenario.at_ 2024 3 15 12 0))
    as (turns & r & H & Hle & _).
  exists turns, r. split; [apply H; apply le_n|exact Hle].
Defined.


